(** * Orchestration core of the Xona agent

    A shallow embedding of the parts of the agent that carry state and
    policy: the rotation cursors and the recent-URL window of
    [services/daily-news.js], the relevance scorer and candidate selection
    of [agent/superteam.js], the retry loop of [services/upload.js] and the
    cron registration of [startCron].

    External services (Grok, the image generator, PumpFun, the forum and
    Superteam HTTP endpoints) appear as the responses they give during one
    run; module-level [let]/[const] bindings appear as fields of an explicit
    state that every pipeline run threads through. *)

From Stdlib Require Import String Ascii ZArith Permutation Sorted.
From stdpp Require Import base list strings gmap pretty.

Local Open Scope string_scope.
Local Open Scope list_scope.

(** ** JavaScript values the pipelines touch *)

Module Js.

(** A string-valued JSON field or variable that may be [null] or
    [undefined]. *)
Definition jsstr : Type := option string.

(** [Boolean(v)]: [null], [undefined] and the empty string are falsy. *)
Definition truthy (v : jsstr) : bool :=
  match v with
  | Some s => negb (String.eqb s "")
  | None => false
  end.

(** [a || b] on possibly-null strings. *)
Definition or_else (a b : jsstr) : jsstr := if truthy a then a else b.

(** [a || 'literal']. *)
Definition or_str (a : jsstr) (d : string) : string :=
  match a with
  | Some s => if String.eqb s "" then d else s
  | None => d
  end.

(** [s.includes(kw)]. *)
Fixpoint includes (kw s : string) : bool :=
  if String.prefix kw s then true
  else match s with
       | EmptyString => false
       | String _ rest => includes kw rest
       end.

(** [c.toLowerCase()] on the ASCII letters. *)
Definition lower_ascii (c : ascii) : ascii :=
  let n := nat_of_ascii c in
  if (65 <=? n)%nat && (n <=? 90)%nat then ascii_of_nat (n + 32) else c.

(** [s.toLowerCase()]; the keyword table is ASCII, and so is the folding
    modelled here. *)
Fixpoint toLowerCase (s : string) : string :=
  match s with
  | EmptyString => EmptyString
  | String c rest => String (lower_ascii c) (toLowerCase rest)
  end.

(** [s.split(c)] for a one-character separator: every separator ends a
    field, so consecutive separators give empty fields. *)
Fixpoint split_on (c : ascii) (s : string) : list string :=
  match s with
  | EmptyString => [EmptyString]
  | String d rest =>
      if Ascii.eqb d c then EmptyString :: split_on c rest
      else match split_on c rest with
           | [] => [String d EmptyString]
           | w :: ws => String d w :: ws
           end
  end.

(** [parts.join(sep)]. *)
Fixpoint join (sep : string) (parts : list string) : string :=
  match parts with
  | [] => ""
  | [p] => p
  | p :: rest => p +:+ sep +:+ join sep rest
  end.

(** [parts.filter(Boolean)] on an array of strings and [null]s. *)
Definition filter_Boolean (parts : list jsstr) : list string :=
  omap (fun p => if truthy p then p else None) parts.

Definition newline : string := String (ascii_of_nat 10) EmptyString.

(** [xs.sort(cmp)]: the engine's sort is stable (Node 20); it is modelled
    as a stable insertion sort.  [cmp x y > 0] moves [y] before [x]. *)
Section Sort.
Context {A : Type} (cmp : A -> A -> Z).

Fixpoint insert_by (x : A) (l : list A) : list A :=
  match l with
  | [] => [x]
  | y :: rest =>
      if (0 <? cmp x y)%Z then y :: insert_by x rest else x :: l
  end.

Fixpoint sort_by (l : list A) : list A :=
  match l with
  | [] => []
  | x :: rest => insert_by x (sort_by rest)
  end.
End Sort.

(** The completion of an [async] function: a value or a thrown error. *)
Inductive Outcome (A : Type) : Type :=
| Returned (a : A)
| Threw (message : string).
Arguments Returned {A} a.
Arguments Threw {A} message.

End Js.

Import Js.

(** ** Rotation cursors and the alternating flag (daily-news.js) *)

Module Rotation.

Definition X_NEWS_ACCOUNTS : list string :=
  ["solana"; "dexteraisol"; "zauthx402"; "payainetwork"; "relayaisolana"].

Definition IMAGE_MODELS : list string :=
  ["nano-banana"; "seedream"; "grok-imagine"].

(** [force || options[index % options.length]].  The index is a counter
    of triggers that starts at 0; JavaScript represents such integers
    exactly, so it is a [nat] here. *)
Definition select (force : jsstr) (options : list string) (index : nat)
  : jsstr :=
  or_else force (options !! (index mod length options)%nat).

(** [if (!force) index++]. *)
Definition advance (force : jsstr) (index : nat) : nat :=
  if truthy force then index else S index.

(** [pumpfunType === 'trending' ? 'movers' : 'trending']. *)
Definition toggle (pumpfunType : string) : string :=
  if String.eqb pumpfunType "trending" then "movers" else "trending".

(** [if (!forceType) pumpfunType = ...]. *)
Definition alternate (force : jsstr) (pumpfunType : string) : string :=
  if truthy force then pumpfunType else toggle pumpfunType.

(** One cursor seen alone: the option chosen by a trigger and the index
    it leaves behind. *)
Definition next (force : jsstr) (options : list string) (index : nat)
  : jsstr * nat :=
  (select force options index, advance force index).

(** The options chosen by [n] successive non-forced triggers. *)
Fixpoint run_triggers (options : list string) (index n : nat)
  : list jsstr * nat :=
  match n with
  | 0 => ([], index)
  | S k =>
      let '(chosen, index') := next None options index in
      let '(later, final) := run_triggers options index' k in
      (chosen :: later, final)
  end.

End Rotation.

(** ** The window of recently posted news URLs (daily-news.js) *)

Module Dedup.

Section Window.
(** [const MAX_RECENT]. *)
Variable MAX_RECENT : nat.

(** [recentNewsUrls.shift()]. *)
Definition shift (recent : list jsstr) : list jsstr := tail recent.

(** [trackNewsUrl(url)]: a guarded push followed by at most one shift. *)
Definition trackNewsUrl (url : jsstr) (recent : list jsstr) : list jsstr :=
  if truthy url then
    let pushed := recent ++ [url] in
    if (MAX_RECENT <? length pushed)%nat then shift pushed else pushed
  else recent.

(** The window after recording a sequence of identifiers from the first
    call to the last; [track_all urls []] ranges over the windows the
    process can be in, as [recentNewsUrls] starts empty and is written by
    [trackNewsUrl] alone. *)
Definition track_all (urls : list jsstr) (recent : list jsstr)
  : list jsstr :=
  fold_left (fun w u => trackNewsUrl u w) urls recent.
End Window.

Definition MAX_RECENT : nat := 30.

(** [recentNewsUrls.includes(url)]. *)
Definition includes_url (recent : list jsstr) (url : jsstr) : bool :=
  bool_decide (url ∈ recent).

End Dedup.


(** ** Relevance scorer and candidate selection (agent/superteam.js) *)

Module Scanner.

(** [static CAPABILITY_KEYWORDS], in the order [Object.entries] walks it. *)
Definition CAPABILITY_KEYWORDS : list (string * list string) :=
  [ ("image", ["image"; "design"; "graphic"; "visual"; "banner"; "logo";
               "illustration"; "creative"; "art"]);
    ("video", ["video"; "animation"; "motion"; "clip"]);
    ("defi", ["defi"; "token"; "trading"; "analytics"; "pumpfun"; "dex";
              "swap"; "market"]);
    ("ai", ["ai"; "artificial intelligence"; "machine learning"; "generate";
            "generation"]);
    ("solana", ["solana"; "spl"; "sol"; "blockchain"; "web3"; "on-chain"]);
    ("agent", ["agent"; "autonomous"; "bot"; "automation"]);
    ("content", ["content"; "write"; "article"; "blog"; "newsletter"; "news";
                 "social media"]) ].

(** The two locals of [scoreListing]. *)
Record Score : Type := mkScore {
  score : nat;
  matchedCategories : list string
}.

(** The inner loop, [for (const kw of keywords)], leaving at the [break]. *)
Fixpoint scan_keywords (text category : string) (keywords : list string)
  (acc : Score) : Score :=
  match keywords with
  | [] => acc
  | kw :: rest =>
      if includes kw text
      then mkScore (score acc + 1) (matchedCategories acc ++ [category])
      else scan_keywords text category rest acc
  end.

(** The outer loop over [Object.entries(CAPABILITY_KEYWORDS)]. *)
Fixpoint scan_categories (text : string) (table : list (string * list string))
  (acc : Score) : Score :=
  match table with
  | [] => acc
  | (category, keywords) :: rest =>
      scan_categories text rest (scan_keywords text category keywords acc)
  end.

(** The scorer on the case-folded text, over any table. *)
Definition score_text (table : list (string * list string)) (text : string)
  : Score :=
  scan_categories text table (mkScore 0 []).

(** The fields of a listing the scanner reads. *)
Record Listing : Type := mkListing {
  id : string;
  title : jsstr;
  description : jsstr;
  slug : jsstr;
  pocId : jsstr
}.

(** The template literal of [scoreListing], case-folded. *)
Definition listing_text (l : Listing) : string :=
  toLowerCase
    (or_str (title l) "" +:+ " " +:+ or_str (description l) "" +:+ " "
     +:+ or_str (slug l) "").

Definition scoreListing (l : Listing) : Score :=
  score_text CAPABILITY_KEYWORDS (listing_text l).

(** [{ ...listing, ...this.scoreListing(listing) }]. *)
Record Candidate : Type := mkCandidate {
  listing : Listing;
  relevance : Score
}.

Definition cscore (c : Candidate) : nat := score (relevance c).
Definition cid (c : Candidate) : string := id (listing c).

Definition with_score (l : Listing) : Candidate :=
  mkCandidate l (scoreListing l).

(** The comparator [(a, b) => b.score - a.score]. *)
Definition by_score_desc (a b : Candidate) : Z :=
  (Z.of_nat (cscore b) - Z.of_nat (cscore a))%Z.

(** The chain building [candidates] in [scanAndSubmit]. *)
Definition candidates (submittedListings : gset string)
  (listings : list Listing) : list Candidate :=
  sort_by by_score_desc
    (List.filter (fun l => negb (bool_decide (cid l ∈ submittedListings)))
       (List.filter (fun l => (2 <=? cscore l)%nat)
          (map with_score listings))).

(** [candidates.slice(0, 3)]. *)
Definition toSubmit (cands : list Candidate) : list Candidate := take 3 cands.

(** What the Superteam endpoints answer during one scan: the body of the
    discovery response ([None] when [discoverListings] returns [null] or
    has no [listings]), and for each listing id whether the submission
    request succeeded and, if so, whether its body is truthy. *)
Record Responses : Type := mkResponses {
  discover : option (list Listing);
  submission : string -> option bool
}.

(** The agent fields the scan reads and writes, with the submission
    requests sent so far. *)
Record Agent : Type := mkAgent {
  submittedListings : gset string;
  requests : list string
}.

(** [submitWork]: a successful request records the listing id; a failed
    one is caught and gives [null]. *)
Definition submitWork (env : Responses) (listingId : string) (a : Agent)
  : bool * Agent :=
  match submission env listingId with
  | Some body =>
      (body, mkAgent ({[listingId]} ∪ submittedListings a)
               (requests a ++ [listingId]))
  | None => (false, mkAgent (submittedListings a) (requests a ++ [listingId]))
  end.

(** The [for (const listing of toSubmit)] loop, carrying [submitted]. *)
Fixpoint submit_each (env : Responses) (todo : list Candidate)
  (submitted : nat) (a : Agent) : nat * Agent :=
  match todo with
  | [] => (submitted, a)
  | c :: rest =>
      let '(result, a') := submitWork env (cid c) a in
      submit_each env rest (if result then S submitted else submitted) a'
  end.

(** The object [scanAndSubmit] resolves to. *)
Record ScanResult : Type := mkScanResult {
  submitted : nat;
  scanned : nat;
  candidate_count : option nat
}.

Definition scanAndSubmit (env : Responses) (a : Agent)
  : Outcome ScanResult * Agent :=
  match discover env with
  | None => (Returned (mkScanResult 0 0 None), a)
  | Some [] => (Returned (mkScanResult 0 0 None), a)
  | Some listings =>
      let cands := candidates (submittedListings a) listings in
      let '(n, a') := submit_each env (toSubmit cands) 0 a in
      (Returned (mkScanResult n (length listings) (Some (length cands))), a')
  end.

(** The selector as the specification words it, over items that already
    carry a score: drop below [minScore], drop the already acted on, order
    by score descending keeping ties in place, keep the first
    [maxPerCycle]. *)
Definition select_spec (items : list Candidate) (minScore : nat)
  (alreadyActedSet : gset string) (maxPerCycle : nat) : list Candidate :=
  take maxPerCycle
    (sort_by by_score_desc
       (List.filter (fun c => negb (bool_decide (cid c ∈ alreadyActedSet)))
          (List.filter (fun c => negb (cscore c <? minScore)%nat) items))).

End Scanner.

(** ** Retry with exponential backoff (services/upload.js) *)

Module Backoff.

Section Retry.
Context {T E : Type}.

(** How one invocation of [fn] settles. *)
Inductive Settled : Type :=
| Resolved (value : T)
| Rejected (error : E).

(** What [retry] leaves behind: how it settles ([lastError] is [undefined]
    until an attempt has failed), how often [fn] ran, and the timeouts it
    slept through, in milliseconds. *)
Record Run : Type := mkRun {
  settled : T + option E;
  invocations : nat;
  waits : list Z
}.

(** The [for] loop from [attempt] on, with [remaining] iterations left
    before [attempt <= maxRetries] fails.  [fn k] is how the [k]-th
    invocation settles. *)
Fixpoint retry_loop (fn : nat -> Settled) (maxRetries : nat) (delayMs : Z)
  (remaining attempt : nat) (lastError : option E) (calls : nat)
  (slept : list Z) : Run :=
  match remaining with
  | 0 => mkRun (inr lastError) calls slept
  | S k =>
      match fn (S calls) with
      | Resolved v => mkRun (inl v) (S calls) slept
      | Rejected e =>
          let slept' :=
            if (attempt <? maxRetries)%nat
            then slept ++ [(delayMs * 2 ^ Z.of_nat (attempt - 1))%Z]
            else slept in
          retry_loop fn maxRetries delayMs k (S attempt) (Some e) (S calls)
            slept'
      end
  end.

(** [retry(fn, maxRetries, delayMs)]. *)
Definition retry (fn : nat -> Settled) (maxRetries : nat) (delayMs : Z)
  : Run :=
  retry_loop fn maxRetries delayMs maxRetries 1 None 0 [].

End Retry.

Arguments Settled : clear implicits.
Arguments Run : clear implicits.

End Backoff.


(** ** The forum pipelines (services/daily-news.js) *)

Module Pipelines.

(** The module-level bindings the pipelines share. *)
Record State : Type := mkState {
  xNewsIndex : nat;
  modelIndex : nat;
  pumpfunType : string;
  recentNewsUrls : list jsstr
}.

(** The bindings as the module initialises them. *)
Definition initial : State := mkState 0 0 "trending" [].

(** Requests a run sends to the outside. *)
Inductive Call : Type :=
| GrokSearch (username : string)
| ImageGen (model : string)
| PumpFetch (kind : string)
| ForumPost (title body : string).

(** The process as a run sees it: the bindings, and the requests sent so
    far, oldest first. *)
Record World : Type := mkWorld {
  vars : State;
  trace : list Call
}.

(** An [async] function over the world. *)
Definition M (A : Type) : Type := World -> Outcome A * World.

Definition ret {A} (a : A) : M A := fun w => (Returned a, w).

Definition throw {A} (message : string) : M A := fun w => (Threw message, w).

Definition bind {A B} (m : M A) (k : A -> M B) : M B :=
  fun w =>
    match m w with
    | (Returned a, w') => k a w'
    | (Threw e, w') => (Threw e, w')
    end.

Notation "'let*' x ':=' m 'in' k" := (bind m (fun x => k))
  (at level 10, x name, m at level 100, k at level 200).
Notation "'let*' '_' ':=' m 'in' k" := (bind m (fun _ => k))
  (at level 10, m at level 100, k at level 200).

Definition read_vars : M State := fun w => (Returned (vars w), w).

Definition write_vars (f : State -> State) : M unit :=
  fun w => (Returned tt, mkWorld (f (vars w)) (trace w)).

Definition send (c : Call) : M unit :=
  fun w => (Returned tt, mkWorld (vars w) (trace w ++ [c])).

(** [await] on a response of the outside world. *)
Definition await {A} (response : Outcome A) : M A := fun w => (response, w).

(** [try { ... } catch { return fallback }] around one response. *)
Definition or_catch {A} (response : Outcome A) (fallback : A) : A :=
  match response with
  | Returned a => a
  | Threw _ => fallback
  end.

(** A template literal's rendering of a possibly-missing string. *)
Definition show (v : jsstr) : string := default "undefined" v.

(** The Colosseum agent: what the forum endpoint answers to a post,
    [None] for a failed request (which [createForumPost] catches), else
    the response body's [post?.id]. *)
Record ForumAgent : Type := mkForumAgent {
  forum_response : string -> string -> option jsstr
}.

(** [agent.createForumPost(title, body)] (agent/colosseum.js). *)
Definition createForumPost (agent : ForumAgent) (title body : string)
  : M (option jsstr) :=
  let* _ := send (ForumPost title body) in
  ret (forum_response agent title body).

(** [postToForum(agent, title, body)]. *)
Definition postToForum (agent : option ForumAgent) (title body : string)
  : M (option jsstr) :=
  match agent with
  | None => ret None
  | Some a => createForumPost a title body
  end.

(** [forumResult?.post?.id || null]. *)
Definition post_id (forumResult : option jsstr) : jsstr :=
  match forumResult with
  | Some pid => or_else pid None
  | None => None
  end.

(** *** Pipeline 1: X News *)

(** An element of the [news] array Grok answers with. *)
Record RawItem : Type := mkRawItem {
  raw_news_url : jsstr;
  raw_post_url : jsstr;
  raw_url : jsstr;
  raw_title : jsstr;
  raw_text : jsstr;
  raw_tweet_content : jsstr;
  raw_content : jsstr;
  raw_date : jsstr;
  raw_created_at : jsstr;
  raw_sentiment : jsstr
}.

(** What [parseJsonFromResponse] gives: an object with optional
    [profile_image_url] and [news], or a bare array. *)
Inductive Parsed : Type :=
| ParsedObject (profile_image_url : jsstr) (news : option (list RawItem))
| ParsedArray (items : list RawItem).

Record NewsItem : Type := mkNewsItem {
  news_url : jsstr;
  title : string;
  text : string;
  source_name : string;
  date : string;
  sentiment : string
}.

(** The outside world during one X News run: Grok's search answer after
    parsing, its title answer ([result?.title]), the banner generator's
    [image_url], the clock, and how [new Date(s)] reads a date string
    ([None] for an invalid date). *)
Record XNewsEnv : Type := mkXNewsEnv {
  search : Outcome (option Parsed);
  title_answer : Outcome jsstr;
  banner_answer : Outcome jsstr;
  now_iso : string;
  date_ms : string -> option Z
}.

(** The [map] callback of [fetchLatestNews]. *)
Definition to_news_item (env : XNewsEnv) (username : string) (item : RawItem)
  : NewsItem :=
  mkNewsItem
    (or_else (raw_news_url item) (or_else (raw_post_url item)
       (or_else (raw_url item) None)))
    (or_str (raw_title item) (substring 0 100 (or_str (raw_text item) "")))
    (or_str (raw_text item)
       (or_str (raw_tweet_content item) (or_str (raw_content item) "")))
    username
    (or_str (raw_date item) (or_str (raw_created_at item) (now_iso env)))
    (or_str (raw_sentiment item) "Neutral").

Definition news_array (parsed : Parsed) : list RawItem :=
  match parsed with
  | ParsedObject _ (Some news) => news
  | ParsedObject _ None => []
  | ParsedArray items => items
  end.

Definition profile_of (parsed : Parsed) : jsstr :=
  match parsed with
  | ParsedObject p _ => or_else p None
  | ParsedArray _ => None
  end.

(** The items and profile image [fetchLatestNews] reads out of the parsed
    answer, before the window is consulted. *)
Definition parsed_news (env : XNewsEnv) (username : string)
  (response : option Parsed) : list NewsItem * jsstr :=
  match response with
  | Some parsed =>
      (List.filter (fun item => (0 <? String.length (text item))%nat)
         (map (to_news_item env username) (news_array parsed)),
       profile_of parsed)
  | None => ([], None)
  end.

(** [newsItems.filter(item => !recentNewsUrls.includes(item.news_url))]. *)
Definition not_recent (recent : list jsstr) (newsItems : list NewsItem)
  : list NewsItem :=
  List.filter (fun item => negb (Dedup.includes_url recent (news_url item)))
    newsItems.

(** [fetchLatestNews(username)]. *)
Definition fetchLatestNews (env : XNewsEnv) (username : string)
  : M (list NewsItem * jsstr) :=
  let* _ := send (GrokSearch username) in
  let* response := await (search env) in
  let '(newsItems, profileImageUrl) := parsed_news env username response in
  let* s := read_vars in
  ret (not_recent (recentNewsUrls s) newsItems, profileImageUrl).

(** [generateNewsTitle(topNews, username)]. *)
Definition generateNewsTitle (env : XNewsEnv) (topNews : NewsItem) : string :=
  let fallback :=
    join " "
      (take 4
         (split_on " "%char
            (or_str (Some (title topNews))
               (or_str (Some (text topNews)) "News Update")))) in
  or_str (or_catch (title_answer env) None) fallback.

(** [generateNewsBanner(title, username, profileImageUrl)]. *)
Definition generateNewsBanner (env : XNewsEnv) : jsstr :=
  or_catch (banner_answer env) None.

(** The comparator [(a, b) => new Date(b.date) - new Date(a.date)]; a
    [NaN] difference counts as 0. *)
Definition by_date_desc (env : XNewsEnv) (a b : NewsItem) : Z :=
  match date_ms env (date b), date_ms env (date a) with
  | Some tb, Some ta => (tb - ta)%Z
  | _, _ => 0%Z
  end.

(** The object [runXNewsPost] resolves to. *)
Inductive XNewsResult : Type :=
| NoNews (message : string) (username : string)
| NewsPosted (username title body : string) (bannerUrl newsSource : jsstr)
    (forumPostId : jsstr).

Definition xnews_title (username title : string) : string :=
  "📡 Latest from @" +:+ username +:+ ": " +:+ title.

Definition xnews_body (username title : string) (topNews : NewsItem)
  (bannerUrl : jsstr) : string :=
  join newline
    (filter_Boolean
       [ Some ("## " +:+ title);
         Some "";
         Some (text topNews);
         Some "";
         Some (if truthy bannerUrl
               then "![News Banner](" +:+ show bannerUrl +:+ ")" else "");
         Some "";
         Some ("**Source:** "
               +:+ or_str (news_url topNews) ("https://x.com/" +:+ username));
         Some ("**Sentiment:** " +:+ sentiment topNews);
         Some "";
         Some "---";
         Some "*Autonomously curated by Xona Agent — fetching latest Solana ecosystem news from X*" ]).

(** [runXNewsPost(agent, forceAccount)]. *)
Definition runXNewsPost (env : XNewsEnv) (agent : option ForumAgent)
  (forceAccount : jsstr) : M XNewsResult :=
  let* s := read_vars in
  let username :=
    show (Rotation.select forceAccount Rotation.X_NEWS_ACCOUNTS
            (xNewsIndex s)) in
  let* _ := write_vars (fun s =>
    mkState (Rotation.advance forceAccount (xNewsIndex s)) (modelIndex s)
      (pumpfunType s) (recentNewsUrls s)) in
  let* fetched := fetchLatestNews env username in
  let '(newsItems, profileImageUrl) := fetched in
  match sort_by (by_date_desc env) newsItems with
  | [] => ret (NoNews ("No news found for @" +:+ username) username)
  | topNews :: _ =>
      let title := generateNewsTitle env topNews in
      let bannerUrl := generateNewsBanner env in
      let forumTitle := xnews_title username title in
      let forumBody := xnews_body username title topNews bannerUrl in
      let* forumResult := postToForum agent forumTitle forumBody in
      let* _ := write_vars (fun s =>
        mkState (xNewsIndex s) (modelIndex s) (pumpfunType s)
          (Dedup.trackNewsUrl Dedup.MAX_RECENT (news_url topNews)
             (recentNewsUrls s))) in
      ret (NewsPosted username forumTitle forumBody bannerUrl
             (news_url topNews) (post_id forumResult))
  end.

(** [previewXNews(forceAccount)]. *)
Definition previewXNews (env : XNewsEnv) (forceAccount : jsstr)
  : M XNewsResult :=
  runXNewsPost env None forceAccount.

(** *** Pipeline 2: Image Showcase *)

Definition themes : list string :=
  [ "Solana ecosystem"; "DeFi innovation"; "blockchain technology";
    "AI and crypto convergence"; "meme culture in crypto"; "digital art";
    "futuristic finance"; "web3 identity"; "on-chain creativity";
    "token launch energy"; "Solana speed"; "decentralized future" ].

(** The object literal [modelNames]. *)
Definition modelNames : gmap string string :=
  {[ "nano-banana" := "Google Nano Banana";
     "seedream" := "ByteDance Seedream 4.5";
     "grok-imagine" := "xAI Grok Imagine" ]}.

(** [modelNames[modelKey] || modelKey]. *)
Definition model_name (modelKey : string) : string :=
  or_str (modelNames !! modelKey) modelKey.

(** The outside world during one showcase run: the index
    [Math.floor(Math.random() * themes.length)], Grok's prompt answer
    ([result?.prompt]), the generated image's [image_url], and Grok's
    review answer ([result?.review]). *)
Record ShowcaseEnv : Type := mkShowcaseEnv {
  theme_index : nat;
  prompt_answer : Outcome jsstr;
  image_answer : Outcome string;
  review_answer : Outcome jsstr
}.

Definition quote : string := String (ascii_of_nat 34) EmptyString.

(** [generateCreativePrompt()], giving [{ prompt, theme }]. *)
Definition generateCreativePrompt (env : ShowcaseEnv) : string * string :=
  let theme := show (themes !! theme_index env) in
  (or_str (or_catch (prompt_answer env) None)
     ("A breathtaking visualization of " +:+ theme
      +:+ " with neon gradients, glowing particles, and futuristic elements in a cinematic 4K style"),
   theme).

(** [generateModelReview(modelKey, prompt, imageUrl, theme)]. *)
Definition generateModelReview (env : ShowcaseEnv) (modelKey theme : string)
  : string :=
  or_str (or_catch (review_answer env) None)
    ("Generated with " +:+ model_name modelKey +:+ ". The model handles the "
     +:+ quote +:+ theme +:+ quote +:+
     " theme well, producing vivid colors and coherent composition. Detail level is solid for the prompt complexity. Overall a strong showing of current AI image generation capabilities.").

Definition showcase_title (modelName theme : string) : string :=
  "🎨 AI Image Showcase: " +:+ modelName +:+ " — " +:+ quote +:+ theme
  +:+ quote.

Definition showcase_body (modelKey modelName theme prompt imageUrl review
  : string) : string :=
  join newline
    [ "## " +:+ modelName +:+ " — Image Generation Review";
      "";
      "![Generated Image](" +:+ imageUrl +:+ ")";
      "";
      "**Prompt:** " +:+ quote +:+ prompt +:+ quote;
      "";
      "**Model:** " +:+ modelName;
      "**Theme:** " +:+ theme;
      "";
      "### Review";
      "";
      review;
      "";
      "---";
      "Want to generate your own? Use our free API:";
      "```";
      "POST /generate-image";
      "{ " +:+ quote +:+ "prompt" +:+ quote +:+ ": " +:+ quote
        +:+ substring 0 80 prompt +:+ "..." +:+ quote +:+ ", " +:+ quote
        +:+ "model" +:+ quote +:+ ": " +:+ quote +:+ modelKey +:+ quote
        +:+ " }";
      "```";
      "";
      "*Autonomously generated by Xona Agent — showcasing AI model capabilities*" ].

(** The object [runImageShowcase] resolves to. *)
Record ShowcaseResult : Type := mkShowcaseResult {
  sc_model : string;
  sc_modelName : string;
  sc_theme : string;
  sc_prompt : string;
  sc_imageUrl : string;
  sc_review : string;
  sc_title : string;
  sc_body : string;
  sc_forumPostId : jsstr
}.

(** [runImageShowcase(agent, forceModel)]. *)
Definition runImageShowcase (env : ShowcaseEnv) (agent : option ForumAgent)
  (forceModel : jsstr) : M ShowcaseResult :=
  let* s := read_vars in
  let modelKey :=
    show (Rotation.select forceModel Rotation.IMAGE_MODELS (modelIndex s)) in
  let* _ := write_vars (fun s =>
    mkState (xNewsIndex s) (Rotation.advance forceModel (modelIndex s))
      (pumpfunType s) (recentNewsUrls s)) in
  let modelName := model_name modelKey in
  let '(prompt, theme) := generateCreativePrompt env in
  let* _ := send (ImageGen modelKey) in
  let* imageUrl := await (image_answer env) in
  let review := generateModelReview env modelKey theme in
  let forumTitle := showcase_title modelName theme in
  let forumBody :=
    showcase_body modelKey modelName theme prompt imageUrl review in
  let* forumResult := postToForum agent forumTitle forumBody in
  ret (mkShowcaseResult modelKey modelName theme prompt imageUrl review
         forumTitle forumBody (post_id forumResult)).

(** [previewImageShowcase(forceModel)]. *)
Definition previewImageShowcase (env : ShowcaseEnv) (forceModel : jsstr)
  : M ShowcaseResult :=
  runImageShowcase env None forceModel.

(** *** Pipeline 3: PumpFun Intel *)

(** The token fields [formatTokenMarkdown] reads. *)
Record Token : Type := mkToken {
  name : jsstr;
  ticker : jsstr;
  mc : jsstr;
  ca : jsstr;
  icon : jsstr;
  icon_description : jsstr;
  twitter : jsstr;
  website : jsstr;
  change_5m : jsstr;
  change_1h : jsstr;
  change_6h : jsstr;
  change_24h : jsstr
}.

(** [if (v != null) priceChanges.push(`label: ${v}%`)]. *)
Definition price_change (label : string) (v : jsstr) : list string :=
  match v with
  | Some shown => [label +:+ ": " +:+ shown +:+ "%"]
  | None => []
  end.

(** [cond ? `prefix${v}suffix` : null] for a field tested for truthiness. *)
Definition line_if (v : jsstr) (prefix suffix : string) : jsstr :=
  if truthy v then Some (prefix +:+ show v +:+ suffix) else None.

(** [formatTokenMarkdown(token, index)]. *)
Definition formatTokenMarkdown (token : Token) (index : nat) : string :=
  let priceChanges :=
    price_change "5m" (change_5m token) ++ price_change "1h" (change_1h token)
    ++ price_change "6h" (change_6h token)
    ++ price_change "24h" (change_24h token) in
  join newline
    (filter_Boolean
       [ Some ("### " +:+ pretty (index + 1)%nat +:+ ". "
               +:+ or_str (name token) "Unknown" +:+ " ($"
               +:+ or_str (ticker token) "???" +:+ ")");
         Some "";
         Some ("- **Market Cap:** " +:+ or_str (mc token) "N/A");
         (if (0 <? length priceChanges)%nat
          then Some ("- **Price Changes:** " +:+ join " | " priceChanges)
          else None);
         line_if (ca token) "- **CA:** `" "`";
         (if truthy (icon token)
          then Some ("- **Icon:** ![" +:+ show (ticker token) +:+ "]("
                     +:+ show (icon token) +:+ ")")
          else None);
         line_if (icon_description token) "- **Icon Description:** " "";
         line_if (twitter token) "- **Twitter:** " "";
         line_if (website token) "- **Website:** " "" ]).

(** What [getTrending]/[getMovers] resolve to. *)
Record PumpData : Type := mkPumpData {
  trending_tokens : option (list Token);
  movers_tokens : option (list Token);
  summary : jsstr;
  suggestions : option (list string)
}.

(** The outside world during one PumpFun run: the two feeds, and the two
    readings of the clock as ISO strings. *)
Record PumpEnv : Type := mkPumpEnv {
  trending_answer : Outcome PumpData;
  movers_answer : Outcome PumpData;
  now_title : string;
  now_body : string
}.

(** The object [runPumpFunPost] resolves to. *)
Inductive PumpResult : Type :=
| NoTokens (message : string) (kind : string)
| PumpPosted (kind label title body : string) (summary : jsstr)
    (suggestions : option (list string)) (tokenCount : nat)
    (forumPostId : jsstr).

(** [tokens.map((t, i) => formatTokenMarkdown(t, i))]. *)
Definition format_tokens (tokens : list Token) : list string :=
  imap (fun i t => formatTokenMarkdown t i) tokens.

Definition pump_title (emoji label now : string) : string :=
  emoji +:+ " PumpFun " +:+ label +:+ " — "
  +:+ default "" (head (split_on "T"%char now)).

Definition pump_body (emoji label kind now : string) (data : PumpData)
  (tokens : list Token) : string :=
  join newline
    (filter_Boolean
       [ Some ("## " +:+ emoji +:+ " PumpFun " +:+ label);
         Some ("*Updated: " +:+ now +:+ "*");
         Some "";
         Some "### AI Analysis";
         Some "";
         Some (or_str (summary data) "No summary available.");
         Some "";
         Some (match suggestions data with
               | Some (s :: rest) =>
                   "### Suggestions" +:+ newline +:+ newline
                   +:+ join newline (map (fun s => "- " +:+ s) (s :: rest))
               | _ => ""
               end);
         Some "";
         Some ("### Token List (" +:+ pretty (length tokens) +:+ ")");
         Some "";
         Some (join (newline +:+ newline) (format_tokens tokens));
         Some "";
         Some "---";
         Some "*Data sourced from PumpFun + DexScreener, enriched with AI analysis by Xona Agent*";
         Some "";
         Some "Want real-time data? Use our free API:";
         Some "```";
         Some ("GET /pumpfun/" +:+ kind +:+ "?limit=10");
         Some "```" ]).

(** [runPumpFunPost(agent, forceType)]. *)
Definition runPumpFunPost (env : PumpEnv) (agent : option ForumAgent)
  (forceType : jsstr) : M PumpResult :=
  let* s := read_vars in
  let kind := show (or_else forceType (Some (pumpfunType s))) in
  let* _ := write_vars (fun s =>
    mkState (xNewsIndex s) (modelIndex s)
      (Rotation.alternate forceType (pumpfunType s)) (recentNewsUrls s)) in
  let isTrending := String.eqb kind "trending" in
  let label := if isTrending then "Trending Tokens" else "Top Movers" in
  let* _ := send (PumpFetch (if isTrending then "trending" else "movers")) in
  let* data :=
    await (if isTrending then trending_answer env else movers_answer env) in
  let tokens :=
    if isTrending then trending_tokens data else movers_tokens data in
  match tokens with
  | None | Some [] =>
      ret (NoTokens ("No " +:+ label +:+ " data available") kind)
  | Some tokens =>
      let emoji := if isTrending then "🚀" else "📈" in
      let forumTitle := pump_title emoji label (now_title env) in
      let forumBody :=
        pump_body emoji label kind (now_body env) data tokens in
      let* forumResult := postToForum agent forumTitle forumBody in
      ret (PumpPosted ("pumpfun_" +:+ kind) label forumTitle forumBody
             (summary data) (suggestions data) (length tokens)
             (post_id forumResult))
  end.

(** [previewPumpFun(forceType)]. *)
Definition previewPumpFun (env : PumpEnv) (forceType : jsstr)
  : M PumpResult :=
  runPumpFunPost env None forceType.

(** *** Scheduled triggers

    A cron callback awaits the run without a forced option and catches
    what it throws; either way the world the run left behind stays. *)

Definition cron_xnews (agent : option ForumAgent) (env : XNewsEnv)
  (w : World) : World :=
  snd (runXNewsPost env agent None w).

Definition cron_showcase (agent : option ForumAgent) (env : ShowcaseEnv)
  (w : World) : World :=
  snd (runImageShowcase env agent None w).

Definition cron_pumpfun (agent : option ForumAgent) (env : PumpEnv)
  (w : World) : World :=
  snd (runPumpFunPost env agent None w).

(** Successive triggers of one pipeline, each run settling before the
    next trigger, one environment per run. *)
Definition xnews_triggers (agent : option ForumAgent) (envs : list XNewsEnv)
  (w : World) : World :=
  fold_left (fun w env => cron_xnews agent env w) envs w.

Definition showcase_triggers (agent : option ForumAgent)
  (envs : list ShowcaseEnv) (w : World) : World :=
  fold_left (fun w env => cron_showcase agent env w) envs w.

(** The accounts searched and the models asked for, read off a trace. *)
Definition searched (calls : list Call) : list string :=
  omap (fun c => match c with GrokSearch u => Some u | _ => None end) calls.

Definition generated (calls : list Call) : list string :=
  omap (fun c => match c with ImageGen m => Some m | _ => None end) calls.

Definition fetched_kinds (calls : list Call) : list string :=
  omap (fun c => match c with PumpFetch k => Some k | _ => None end) calls.

(** The forum posts requested, read off a trace. *)
Definition forum_posts (calls : list Call) : list (string * string) :=
  omap (fun c => match c with ForumPost t b => Some (t, b) | _ => None end)
    calls.

(** The requests of a trace other than forum posts. *)
Definition without_posts (calls : list Call) : list Call :=
  List.filter (fun c => match c with ForumPost _ _ => false | _ => true end)
    calls.

(** The three selection bindings of a state. *)
Definition selection (s : State) : nat * nat * string :=
  (xNewsIndex s, modelIndex s, pumpfunType s).

(** The result of a run with its forum post id blanked. *)
Definition xnews_blank (r : XNewsResult) : XNewsResult :=
  match r with
  | NoNews m u => NoNews m u
  | NewsPosted u t b banner src _ => NewsPosted u t b banner src None
  end.

Definition showcase_blank (r : ShowcaseResult) : ShowcaseResult :=
  mkShowcaseResult (sc_model r) (sc_modelName r) (sc_theme r) (sc_prompt r)
    (sc_imageUrl r) (sc_review r) (sc_title r) (sc_body r) None.

Definition pump_blank (r : PumpResult) : PumpResult :=
  match r with
  | NoTokens m k => NoTokens m k
  | PumpPosted k l t b sm sg n _ => PumpPosted k l t b sm sg n None
  end.

Definition outcome_map {A B} (f : A -> B) (o : Outcome A) : Outcome B :=
  match o with
  | Returned a => Returned (f a)
  | Threw e => Threw e
  end.

End Pipelines.

(** ** Cron registration ([startCron]) *)

Module Scheduler.

Inductive Pipeline : Type := XNews | Showcase | PumpFun.

#[global] Instance Pipeline_eq_dec : EqDecision Pipeline.
Proof. solve_decision. Defined.

(** A run that has started and not yet settled: its pipeline and the
    option its first statements chose. *)
Definition Run : Type := (Pipeline * string)%type.

(** The scheduler as the event loop sees it: the selection bindings and
    the runs in flight, oldest first. *)
Record Sched : Type := mkSched {
  vars : Pipelines.State;
  inflight : list Run
}.

Definition idle : Sched := mkSched Pipelines.initial [].

(** What the event loop delivers: a cron expression matching for a
    pipeline, a request to one of the server's trigger or preview routes
    with the option it names (if any), or the [k]-th run in flight
    settling. *)
Inductive Event : Type :=
| Tick (p : Pipeline)
| Request (p : Pipeline) (force : jsstr)
| Settle (k : nat).

(** The statements of a run up to its first [await]: select, then
    advance or alternate. *)
Definition start (p : Pipeline) (force : jsstr) (s : Pipelines.State)
  : string * Pipelines.State :=
  match p with
  | XNews =>
      (Pipelines.show
         (Rotation.select force Rotation.X_NEWS_ACCOUNTS
            (Pipelines.xNewsIndex s)),
       Pipelines.mkState (Rotation.advance force (Pipelines.xNewsIndex s))
         (Pipelines.modelIndex s) (Pipelines.pumpfunType s)
         (Pipelines.recentNewsUrls s))
  | Showcase =>
      (Pipelines.show
         (Rotation.select force Rotation.IMAGE_MODELS
            (Pipelines.modelIndex s)),
       Pipelines.mkState (Pipelines.xNewsIndex s)
         (Rotation.advance force (Pipelines.modelIndex s))
         (Pipelines.pumpfunType s) (Pipelines.recentNewsUrls s))
  | PumpFun =>
      (Pipelines.show (or_else force (Some (Pipelines.pumpfunType s))),
       Pipelines.mkState (Pipelines.xNewsIndex s) (Pipelines.modelIndex s)
         (Rotation.alternate force (Pipelines.pumpfunType s))
         (Pipelines.recentNewsUrls s))
  end.

(** A run begins: its first statements execute and it joins the runs in
    flight. *)
Definition begin (p : Pipeline) (force : jsstr) (s : Sched) : Sched :=
  let '(chosen, vars') := start p force (vars s) in
  mkSched vars' (inflight s ++ [(p, chosen)]).

(** The callbacks [startCron] registers call the run at every tick, and
    the routes call it at every request; neither keeps a record of a run
    in flight. *)
Definition step (s : Sched) (e : Event) : Sched :=
  match e with
  | Tick p => begin p None s
  | Request p force => begin p force s
  | Settle k => mkSched (vars s) (delete k (inflight s))
  end.

Definition steps (s : Sched) (es : list Event) : Sched := fold_left step es s.

(** How many runs of a pipeline are in flight. *)
Definition running (p : Pipeline) (s : Sched) : nat :=
  length (List.filter (fun r => bool_decide (r.1 = p)) (inflight s)).

End Scheduler.


(** ** Reading runs (vocabulary for the pipelines' further properties) *)

Module Runs.

(** Successive scheduled runs of PumpFun Intel, each settling before the
    next trigger. *)
Definition pumpfun_triggers (agent : option Pipelines.ForumAgent)
  (envs : list Pipelines.PumpEnv) (w : Pipelines.World) : Pipelines.World :=
  fold_left (fun w env => Pipelines.cron_pumpfun agent env w) envs w.

(** The title and body a settled run reports, if it reports a post. *)
Definition xnews_reported (o : Outcome Pipelines.XNewsResult)
  : list (string * string) :=
  match o with
  | Returned (Pipelines.NewsPosted _ t b _ _ _) => [(t, b)]
  | _ => []
  end.

Definition showcase_reported (o : Outcome Pipelines.ShowcaseResult)
  : list (string * string) :=
  match o with
  | Returned r => [(Pipelines.sc_title r, Pipelines.sc_body r)]
  | Threw _ => []
  end.

Definition pump_reported (o : Outcome Pipelines.PumpResult)
  : list (string * string) :=
  match o with
  | Returned (Pipelines.PumpPosted _ _ t b _ _ _ _) => [(t, b)]
  | _ => []
  end.

(** The posts a run with this agent sends for what it reports: none
    without an agent. *)
Definition sent_by (agent : option Pipelines.ForumAgent)
  (reported : list (string * string)) : list (string * string) :=
  match agent with
  | Some _ => reported
  | None => []
  end.


(** The text the fallback title is cut from:
    [topNews.title || topNews.text || 'News Update']. *)
Definition title_source (topNews : Pipelines.NewsItem) : string :=
  or_str (Some (Pipelines.title topNews))
    (or_str (Some (Pipelines.text topNews)) "News Update").

(** Whether a character occurs in a string. *)
Fixpoint has_char (c : ascii) (s : string) : bool :=
  match s with
  | EmptyString => false
  | String d rest => Ascii.eqb d c || has_char c rest
  end.

End Runs.

(** ** Upload service: nested retries (services/upload.js) *)

Module Upload.

(** The milliseconds a list of timeouts adds up to. *)
Definition sum_ms (timeouts : list Z) : Z := foldr Z.add 0%Z timeouts.

(** The outside as one call of the service leaves it: the GET requests
    and S3 uploads sent so far, and the timeouts slept through. *)
Record Net : Type := mkNet {
  downloads : nat;
  uploads : nat;
  slept : list Z
}.

(** An error value: its [message], or [None] for [undefined]. *)
Definition Error : Type := option string.

(** An [async] function over the outside: it resolves or rejects. *)
Definition Task (A : Type) : Type := Net -> (A + Error) * Net.

(** [await new Promise(resolve => setTimeout(resolve, backoff))]. *)
Definition sleep (ms : Z) (n : Net) : Net :=
  mkNet (downloads n) (uploads n) (slept n ++ [ms]).

(** The [for] loop of [retry] from [attempt] on, over an [fn] that acts on
    the outside; [remaining] counts the iterations left before
    [attempt <= maxRetries] fails. *)
Fixpoint retry_loop {A} (fn : Task A) (maxRetries : nat) (delayMs : Z)
  (remaining attempt : nat) (lastError : Error) : Task A :=
  fun n =>
    match remaining with
    | 0 => (inr lastError, n)
    | S k =>
        match fn n with
        | (inl v, n') => (inl v, n')
        | (inr e, n') =>
            retry_loop fn maxRetries delayMs k (S attempt) e
              (if (attempt <? maxRetries)%nat
               then sleep (delayMs * 2 ^ Z.of_nat (attempt - 1))%Z n'
               else n')
        end
    end.

(** [retry(fn, maxRetries = 3, delayMs = 1000)]. *)
Definition retry {A} (fn : Task A) (maxRetries : nat) (delayMs : Z) : Task A :=
  retry_loop fn maxRetries delayMs maxRetries 1 None.

(** What the response to a GET carries that the service reads. *)
Record Response : Type := mkResponse {
  content_type : jsstr
}.

(** The service's configuration and what the outside answers: the
    [cdnUrl] field, how the [k]-th GET and the [k]-th S3 upload settle
    (a response or an error message; a location or an error message), and
    the [Date.now()]-and-uuid stem made up at the [k]-th GET. *)
Record Env : Type := mkEnv {
  cdnUrl : jsstr;
  download_answer : nat -> Response + string;
  s3_answer : nat -> string + string;
  stem : nat -> string
}.

(** [{ success: true, url, key }]. *)
Record Stored : Type := mkStored {
  url : string;
  key : string
}.

(** The callback of [uploadBuffer]: one S3 upload. *)
Definition s3_upload (env : Env) (folder filename : string) : Task Stored :=
  fun n =>
    let k := S (uploads n) in
    let n' := mkNet (downloads n) k (slept n) in
    let key := folder +:+ "/" +:+ filename in
    match s3_answer env k with
    | inl location =>
        (inl (mkStored
                (if truthy (cdnUrl env)
                 then Pipelines.show (cdnUrl env) +:+ "/" +:+ key
                 else location)
                key),
         n')
    | inr message => (inr (Some message), n')
    end.

(** [uploadBuffer(buffer, folder, filename, contentType)]. *)
Definition uploadBuffer (env : Env) (folder filename : string) : Task Stored :=
  retry (s3_upload env folder filename) 3 1000.

(** [s.endsWith(suffix)]. *)
Definition ends_with (suffix s : string) : bool :=
  (String.length suffix <=? String.length s)%nat
  && String.eqb
       (substring (String.length s - String.length suffix)
          (String.length suffix) s)
       suffix.

(** The content type guessed from an image URL. *)
Definition image_type_of (imageUrl : string) : string :=
  if ends_with ".png" imageUrl then "image/png"
  else if ends_with ".webp" imageUrl then "image/webp"
  else "image/jpeg".

(** The content type guessed from a video URL. *)
Definition video_type_of (videoUrl : string) : string :=
  if ends_with ".webm" videoUrl then "video/webm" else "video/mp4".

(** [contentType.split('/')[1] || fallback]. *)
Definition extension (contentType fallback : string) : string :=
  or_str (split_on "/"%char contentType !! 1%nat) fallback.

(** The callback both download functions hand to [retry]: one GET, then
    [uploadBuffer] under the name chosen. *)
Definition fetch_and_store (env : Env) (guess : string -> string)
  (fallback_ext : string) (fileUrl folder : string) (filename : jsstr)
  : Task Stored :=
  fun n =>
    let k := S (downloads n) in
    let n' := mkNet k (uploads n) (slept n) in
    match download_answer env k with
    | inr message => (inr (Some message), n')
    | inl response =>
        let contentType := or_str (content_type response) (guess fileUrl) in
        let ext := extension contentType fallback_ext in
        let finalFilename := or_str filename (stem env k +:+ "." +:+ ext) in
        uploadBuffer env folder finalFilename n'
    end.

(** What the download functions resolve to. *)
Inductive UploadResult : Type :=
| Uploaded (stored : Stored)
| Failed (message : string).

(** [try { return await this.retry(...) } catch (error) { return
    { success: false, message: error.message } }]; reading [message] off
    [undefined] throws. *)
Definition caught (settled : Stored + Error) : Outcome UploadResult :=
  match settled with
  | inl stored => Returned (Uploaded stored)
  | inr (Some message) => Returned (Failed message)
  | inr None =>
      Threw "Cannot read properties of undefined (reading 'message')"
  end.

(** [downloadAndUploadImage(imageUrl, folder, filename)]. *)
Definition downloadAndUploadImage (env : Env) (imageUrl folder : string)
  (filename : jsstr) (n : Net) : Outcome UploadResult * Net :=
  let '(settled, n') :=
    retry (fetch_and_store env image_type_of "jpg" imageUrl folder filename)
      3 1000 n in
  (caught settled, n').

(** [downloadAndUploadVideo(videoUrl, folder, filename)]. *)
Definition downloadAndUploadVideo (env : Env) (videoUrl folder : string)
  (filename : jsstr) (n : Net) : Outcome UploadResult * Net :=
  let '(settled, n') :=
    retry (fetch_and_store env video_type_of "mp4" videoUrl folder filename)
      3 1000 n in
  (caught settled, n').

(** An [fn] that ignores the outside and settles by a script: its [k]-th
    invocation, counted in [uploads], settles as [script k]. *)
Definition scripted {A} (script : nat -> Backoff.Settled A Error) : Task A :=
  fun n =>
    let k := S (uploads n) in
    let n' := mkNet (downloads n) k (slept n) in
    match script k with
    | Backoff.Resolved v => (inl v, n')
    | Backoff.Rejected e => (inr e, n')
    end.

End Upload.

(** ** Registering and stopping the cron jobs (daily-news.js) *)

Module Cron.

(** The module's cron bindings, the agents it keeps, and the tasks of the
    cron library that are scheduled and not stopped, each with the
    pipeline its callback runs.  A task is known by the order of its
    creation. *)
Record Jobs : Type := mkJobs {
  xNewsCron : option nat;
  showcaseCron : option nat;
  pumpfunCron : option nat;
  agent : option Pipelines.ForumAgent;
  superteamAgent : bool;
  scheduled : list (nat * Scheduler.Pipeline);
  created : nat
}.

(** The bindings as the module initialises them. *)
Definition initial : Jobs := mkJobs None None None None false [] 0.

(** [task.stop()]. *)
Definition stop (task : nat) (tasks : list (nat * Scheduler.Pipeline))
  : list (nat * Scheduler.Pipeline) :=
  List.filter (fun t => negb (t.1 =? task)%nat) tasks.

(** [stopCron()]. *)
Definition stopCron (j : Jobs) : Jobs :=
  let j1 :=
    match xNewsCron j with
    | Some t =>
        mkJobs None (showcaseCron j) (pumpfunCron j) (agent j)
          (superteamAgent j) (stop t (scheduled j)) (created j)
    | None => j
    end in
  let j2 :=
    match showcaseCron j1 with
    | Some t =>
        mkJobs (xNewsCron j1) None (pumpfunCron j1) (agent j1)
          (superteamAgent j1) (stop t (scheduled j1)) (created j1)
    | None => j1
    end in
  match pumpfunCron j2 with
  | Some t =>
      mkJobs (xNewsCron j2) (showcaseCron j2) None (agent j2)
        (superteamAgent j2) (stop t (scheduled j2)) (created j2)
  | None => j2
  end.

(** [cron.schedule(expression, callback, { scheduled: true, ... })]: a
    new task, scheduled at once. *)
Definition schedule (p : Scheduler.Pipeline) (j : Jobs) : nat * Jobs :=
  (created j,
   mkJobs (xNewsCron j) (showcaseCron j) (pumpfunCron j) (agent j)
     (superteamAgent j) (scheduled j ++ [(created j, p)]) (S (created j))).

(** [startCron(agent, superteamAgent)]. *)
Definition startCron (a : Pipelines.ForumAgent) (superteam : bool) (j : Jobs)
  : Jobs :=
  let j0 := stopCron j in
  let j1 :=
    mkJobs (xNewsCron j0) (showcaseCron j0) (pumpfunCron j0) (Some a)
      superteam (scheduled j0) (created j0) in
  let '(tx, j2) := schedule Scheduler.XNews j1 in
  let j3 :=
    mkJobs (Some tx) (showcaseCron j2) (pumpfunCron j2) (agent j2)
      (superteamAgent j2) (scheduled j2) (created j2) in
  let '(ts, j4) := schedule Scheduler.Showcase j3 in
  let j5 :=
    mkJobs (xNewsCron j4) (Some ts) (pumpfunCron j4) (agent j4)
      (superteamAgent j4) (scheduled j4) (created j4) in
  let '(tp, j6) := schedule Scheduler.PumpFun j5 in
  mkJobs (xNewsCron j6) (showcaseCron j6) (Some tp) (agent j6)
    (superteamAgent j6) (scheduled j6) (created j6).

(** Calls of the two exported functions. *)
Inductive Op : Type :=
| Start (a : Pipelines.ForumAgent) (superteam : bool)
| Stop.

Definition apply (j : Jobs) (op : Op) : Jobs :=
  match op with
  | Start a superteam => startCron a superteam j
  | Stop => stopCron j
  end.

Definition run (ops : list Op) (j : Jobs) : Jobs := fold_left apply ops j.

(** How many scheduled tasks run a pipeline. *)
Definition scheduled_for (p : Scheduler.Pipeline) (j : Jobs) : nat :=
  length (List.filter (fun t => bool_decide (t.2 = p)) (scheduled j)).

(** Nothing is scheduled and no binding is set. *)
Definition all_stopped (j : Jobs) : Prop :=
  xNewsCron j = None /\ showcaseCron j = None /\ pumpfunCron j = None
  /\ scheduled j = [].

(** Three tasks created in a row are scheduled, one per pipeline, each
    held by its binding. *)
Definition all_started (j : Jobs) : Prop :=
  exists t,
    xNewsCron j = Some t /\ showcaseCron j = Some (S t)
    /\ pumpfunCron j = Some (S (S t))
    /\ scheduled j
       = [(t, Scheduler.XNews); (S t, Scheduler.Showcase);
          (S (S t), Scheduler.PumpFun)].

End Cron.

(** ** Submission text and scans, further (agent/superteam.js) *)

Module Submission.

Definition image_paragraph : string :=
  "🎨 **Image Generation**: Free AI image generation with 3 models (Google Nano Banana, ByteDance Seedream 4.5, xAI Grok Imagine). Any aspect ratio, reference image support.".

Definition video_paragraph : string :=
  "🎬 **Video Generation**: 10-second AI video clips via Grok Video. Free for all users.".

Definition pumpfun_paragraph : string :=
  "📊 **PumpFun Intelligence**: Real-time trending tokens and top movers with DexScreener data + AI analysis.".

Definition agent_paragraph : string :=
  "🤖 **Autonomous Agent**: Fully autonomous AI agent on Solana with x402 USDC micropayments, Jupiter API integration, and MCP server for agent-to-agent interactions.".

Definition content_paragraph : string :=
  "📡 **Content Pipeline**: Automated news curation from 5 Solana ecosystem X accounts, AI-generated banners, model quality reviews.".

(** [matchedCategories.includes(category)]. *)
Definition has (matched : list string) (category : string) : bool :=
  bool_decide (category ∈ matched).

(** The paragraphs the five [if]s of [buildSubmissionInfo] push. *)
Definition paragraphs (matched : list string) : list string :=
  (if has matched "image" then [image_paragraph] else [])
  ++ (if has matched "video" then [video_paragraph] else [])
  ++ (if has matched "defi" || has matched "solana"
      then [pumpfun_paragraph] else [])
  ++ (if has matched "ai" || has matched "agent"
      then [agent_paragraph] else [])
  ++ (if has matched "content" then [content_paragraph] else []).

(** The array [parts] of [buildSubmissionInfo]; [repo] and [demo] are the
    environment's [COLOSSEUM_REPO_LINK] and [COLOSSEUM_DEMO_LINK]. *)
Definition parts (repo demo : jsstr) (matched : list string) : list string :=
  ["Xona Agent — Autonomous Creative AI on Solana"; ""]
  ++ paragraphs matched
  ++ [""; "All API endpoints are free — no auth, no payment required.";
      "Repo: " +:+ or_str repo "https://github.com/xona-labs/creative-ai-agent";
      "Demo: " +:+ or_str demo "https://xona-agent.com"].

(** [buildSubmissionInfo(listing, matchedCategories)]. *)
Definition buildSubmissionInfo (repo demo : jsstr) (matched : list string)
  : string :=
  join newline (parts repo demo matched).

(** The submission requests a scan adds to those sent before. *)
Definition new_requests (before after : Scanner.Agent) : list string :=
  drop (length (Scanner.requests before)) (Scanner.requests after).

(** A listing with text put before its title and after its slug. *)
Definition wrapped (before after : string) (l : Scanner.Listing)
  : Scanner.Listing :=
  Scanner.mkListing (Scanner.id l)
    (Some (before +:+ or_str (Scanner.title l) ""))
    (Scanner.description l)
    (Some (or_str (Scanner.slug l) "" +:+ after))
    (Scanner.pocId l).

(** A listing with its three text fields in lower case. *)
Definition lowered (l : Scanner.Listing) : Scanner.Listing :=
  Scanner.mkListing (Scanner.id l)
    (Some (toLowerCase (or_str (Scanner.title l) "")))
    (Some (toLowerCase (or_str (Scanner.description l) "")))
    (Some (toLowerCase (or_str (Scanner.slug l) "")))
    (Scanner.pocId l).

End Submission.

(** ** Trigger and preview routes (server.js) *)

Module Routes.

(** What a handler answers: the run's result as JSON, or a status with a
    message. *)
Inductive Reply (R : Type) : Type :=
| Json (result : R)
| Status (code : nat) (message : string).
Arguments Json {R} result.
Arguments Status {R} code message.

(** [option && !OPTIONS.includes(option)]. *)
Definition invalid (options : list string) (option : jsstr) : bool :=
  truthy option && negb (bool_decide (Pipelines.show option ∈ options)).

(** The [try]/[catch] around a run: its result, or status 500 with the
    error's message. *)
Definition answered {R} (settled : Outcome R * Pipelines.World)
  : Reply R * Pipelines.World :=
  match settled with
  | (Returned r, w) => (Json r, w)
  | (Threw message, w) => (Status 500 message, w)
  end.

Definition no_agent : string :=
  "Colosseum agent not configured. Set COLOSSEUM_API_KEY to enable live forum posting.".

(** [GET /test/x-news?account=...]; [field] is [req.query.account]. *)
Definition test_xnews (env : Pipelines.XNewsEnv) (field : jsstr)
  (w : Pipelines.World) : Reply Pipelines.XNewsResult * Pipelines.World :=
  let account := or_else field None in
  if invalid Rotation.X_NEWS_ACCOUNTS account
  then (Status 400
          ("Invalid account. Available: "
           +:+ join ", " Rotation.X_NEWS_ACCOUNTS), w)
  else answered (Pipelines.previewXNews env account w).

(** [POST /trigger/x-news]; [field] is [req.body.account]. *)
Definition trigger_xnews (agent : option Pipelines.ForumAgent)
  (env : Pipelines.XNewsEnv) (field : jsstr) (w : Pipelines.World)
  : Reply Pipelines.XNewsResult * Pipelines.World :=
  match agent with
  | None => (Status 503 no_agent, w)
  | Some a =>
      let account := or_else field None in
      if invalid Rotation.X_NEWS_ACCOUNTS account
      then (Status 400
              ("Invalid account. Available: "
               +:+ join ", " Rotation.X_NEWS_ACCOUNTS), w)
      else answered (Pipelines.runXNewsPost env (Some a) account w)
  end.

(** [GET /test/image-showcase?model=...]. *)
Definition test_showcase (env : Pipelines.ShowcaseEnv) (field : jsstr)
  (w : Pipelines.World) : Reply Pipelines.ShowcaseResult * Pipelines.World :=
  let model := or_else field None in
  if invalid Rotation.IMAGE_MODELS model
  then (Status 400
          ("Invalid model. Available: " +:+ join ", " Rotation.IMAGE_MODELS),
        w)
  else answered (Pipelines.previewImageShowcase env model w).

(** [POST /trigger/image-showcase]. *)
Definition trigger_showcase (agent : option Pipelines.ForumAgent)
  (env : Pipelines.ShowcaseEnv) (field : jsstr) (w : Pipelines.World)
  : Reply Pipelines.ShowcaseResult * Pipelines.World :=
  match agent with
  | None => (Status 503 no_agent, w)
  | Some a =>
      let model := or_else field None in
      if invalid Rotation.IMAGE_MODELS model
      then (Status 400
              ("Invalid model. Available: "
               +:+ join ", " Rotation.IMAGE_MODELS), w)
      else answered (Pipelines.runImageShowcase env (Some a) model w)
  end.

(** [GET /test/pumpfun?type=...]. *)
Definition test_pumpfun (env : Pipelines.PumpEnv) (field : jsstr)
  (w : Pipelines.World) : Reply Pipelines.PumpResult * Pipelines.World :=
  let kind := or_else field None in
  if invalid ["trending"; "movers"] kind
  then (Status 400 "Invalid type. Available: trending, movers", w)
  else answered (Pipelines.previewPumpFun env kind w).

(** [POST /trigger/pumpfun]. *)
Definition trigger_pumpfun (agent : option Pipelines.ForumAgent)
  (env : Pipelines.PumpEnv) (field : jsstr) (w : Pipelines.World)
  : Reply Pipelines.PumpResult * Pipelines.World :=
  match agent with
  | None => (Status 503 no_agent, w)
  | Some a =>
      let kind := or_else field None in
      if invalid ["trending"; "movers"] kind
      then (Status 400 "Invalid type. Available: trending, movers", w)
      else answered (Pipelines.runPumpFunPost env (Some a) kind w)
  end.

(** Whether a reply is a refusal with this status. *)
Definition refused {R} (code : nat) (reply : Reply R) : bool :=
  match reply with
  | Status c _ => (c =? code)%nat
  | Json _ => false
  end.

End Routes.

(** ** PumpFun token intelligence (services/pumpfun.js) *)

Module PumpFun.

Section Service.

(** Market caps are floats, and [formatMarketCap] rounds them with
    [parseFloat] and [toFixed]; both are taken as given. *)
Variable Cap : Type.
Variable formatMarketCap : Cap -> jsstr.

(** A coin as the PumpFun API lists it. *)
Record Coin : Type := mkCoin {
  coin_name : jsstr;
  symbol : jsstr;
  usd_market_cap : Cap;
  mint : jsstr;
  coin_twitter : jsstr;
  coin_website : jsstr
}.

(** An element of the API's array: the coin may sit under [coin]. *)
Record Item : Type := mkItem {
  nested : option Coin;
  own : Coin
}.

(** The first pair DexScreener lists for a token. *)
Record Pair : Type := mkPair {
  imageUrl : jsstr;
  m5 : jsstr;
  h1 : jsstr;
  h6 : jsstr;
  h24 : jsstr
}.

(** What the outside answers during one call: the two PumpFun lists
    ([None] for a body that is not an array), DexScreener's first pair for
    a contract address ([None] when it lists no pair), the vision model's
    description of an icon, and the summary Grok's answer parses to. *)
Record Env : Type := mkEnv {
  top_runners : Outcome (option (list Item));
  top_movers : Outcome (option (list Item));
  dex : string -> Outcome (option Pair);
  vision : string -> Outcome jsstr;
  analysis : string -> Outcome (jsstr * option (list string))
}.













End Service.

End PumpFun.



(** ** Vocabulary of the statements *)

(** A category matches when one of its keywords occurs in the text. *)
Definition category_matches (text : string) (entry : string * list string)
  : bool :=
  existsb (fun kw => includes kw text) entry.2.

Definition score_is (v : nat) (c : Scanner.Candidate) : bool := (Scanner.cscore c =? v)%nat.

(** Whoever stands earlier scores at least as much. *)
Definition descending (l : list Scanner.Candidate) : Prop :=
  StronglySorted (fun a b => (Scanner.cscore b <= Scanner.cscore a)%nat) l.

(** Four listings that score 5, 5, 3 and 1. *)
Definition five_a : Scanner.Listing :=
  Scanner.mkListing "a" (Some "Logo video for a token") (Some "AI on Solana") None None.
Definition five_b : Scanner.Listing :=
  Scanner.mkListing "b" (Some "Banner clip") (Some "DEX swap bot for SPL") None None.
Definition three_c : Scanner.Listing :=
  Scanner.mkListing "c" (Some "Write a blog") (Some "about web3 trading") None None.
Definition one_d : Scanner.Listing :=
  Scanner.mkListing "d" (Some "Newsletter") None None None.

(** The timeout slept after attempt [a] has failed. *)
Definition backoff (delayMs : Z) (a : nat) : Z :=
  (delayMs * 2 ^ Z.of_nat (a - 1))%Z.

(** Invocation [j] of [fn] rejects. *)
Definition fails {T E : Type} (fn : nat -> Backoff.Settled T E) (j : nat)
  : Prop :=
  exists e, fn j = Backoff.Rejected e.

(** A [fn] that fails every time. *)
Definition always_down (k : nat) : Backoff.Settled string string :=
  Backoff.Rejected "ETIMEDOUT".

(** A [fn] that fails twice and then succeeds. *)
Definition flaky (k : nat) : Backoff.Settled string string :=
  if (k <? 3)%nat then Backoff.Rejected "ECONNRESET" else Backoff.Resolved "ok".

(** The state and Pipelines.trace a run of X News has once the search request is
    out. *)
Definition xnews_started (force : jsstr) (w : Pipelines.World) : Pipelines.World :=
  Pipelines.mkWorld
    (Pipelines.mkState (Rotation.advance force (Pipelines.xNewsIndex (Pipelines.vars w)))
       (Pipelines.modelIndex (Pipelines.vars w)) (Pipelines.pumpfunType (Pipelines.vars w))
       (Pipelines.recentNewsUrls (Pipelines.vars w)))
    (Pipelines.trace w
     ++ [Pipelines.GrokSearch
           (Pipelines.show (Rotation.select force Rotation.X_NEWS_ACCOUNTS
                    (Pipelines.xNewsIndex (Pipelines.vars w))))]).

(** The request [postToForum] adds to the Pipelines.trace. *)
Definition posted (agent : option Pipelines.ForumAgent) (title body : string)
  : list Pipelines.Call :=
  match agent with
  | Some _ => [Pipelines.ForumPost title body]
  | None => []
  end.

(** The post id [postToForum] leads to. *)
Definition posted_id (agent : option Pipelines.ForumAgent) (title body : string)
  : jsstr :=
  match agent with
  | Some a => Pipelines.post_id (Pipelines.forum_response a title body)
  | None => None
  end.

(** What the PumpFun run takes as its type: [forceType || Pipelines.pumpfunType]. *)
Definition pump_kind (force : jsstr) (w : Pipelines.World) : string :=
  Pipelines.show (or_else force (Some (Pipelines.pumpfunType (Pipelines.vars w)))).

Definition pump_feed (kind : string) : string :=
  if String.eqb kind "trending" then "trending" else "movers".

(** One post by @solana, as Grok reports it. *)
Definition upgrade_post : Pipelines.RawItem :=
  Pipelines.mkRawItem (Some "https://x.com/solana/status/1") None None
    (Some "Mainnet upgrade") (Some "Mainnet upgrade shipped") None None
    (Some "2026-01-05T10:00:00Z") None (Some "Positive").

(** An outside world in which the search finds that post and the title
    and banner generators are down. *)
Definition upgrade_env : Pipelines.XNewsEnv :=
  Pipelines.mkXNewsEnv
    (Returned (Some (Pipelines.ParsedObject None (Some [upgrade_post]))))
    (Threw "timeout") (Threw "timeout") "2026-01-05T14:00:00.000Z"
    (fun _ => Some 0%Z).

(** A forum whose endpoint rejects every post. *)
Definition forum_down : Pipelines.ForumAgent :=
  Pipelines.mkForumAgent (fun _ _ => None).

(** A forum that accepts every post as post 7. *)
Definition forum_up : Pipelines.ForumAgent :=
  Pipelines.mkForumAgent (fun _ _ => Some (Some "7")).

Definition fresh : Pipelines.World := Pipelines.mkWorld Pipelines.initial [].


(** * Properties *)

(** ** Rotation cursor *)

Section RotationFacts.
Import Rotation.

Lemma select_unforced options index :
  select None options index = options !! (index mod length options)%nat.
Proof. reflexivity. Qed.

Lemma run_triggers_spec options n : forall index,
  run_triggers options index n =
  (map (fun k => options !! ((index + k) mod length options)%nat) (seq 0 n),
   (index + n)%nat).
Proof.
  induction n as [|n IH]; intros index; cbn [run_triggers seq map].
  - by rewrite Nat.add_0_r.
  - cbn [next advance truthy]. rewrite IH, select_unforced.
    rewrite Nat.add_0_r, <- seq_shift, map_map.
    f_equal; [f_equal|lia].
    apply map_ext; intros k. do 2 f_equal. lia.
Qed.

End RotationFacts.

(** ** Dedup window *)

Section DedupFacts.
Import Dedup.

Lemma track_all_snoc cap urls url recent :
  track_all cap (urls ++ [url]) recent =
  trackNewsUrl cap url (track_all cap urls recent).
Proof. unfold track_all. by rewrite fold_left_app. Qed.

Lemma tail_drop {A} (l : list A) : tail l = drop 1 l.
Proof. by destruct l. Qed.

(** The window is the last [cap] recorded identifiers, in recording
    order. *)
Lemma track_all_suffix cap urls :
  let recorded := List.filter truthy urls in
  track_all cap urls [] = drop (length recorded - cap) recorded.
Proof.
  induction urls as [|url urls IH] using rev_ind; [done|].
  cbn zeta in *. rewrite track_all_snoc, IH, List.filter_app.
  set (recorded := List.filter truthy urls) in *.
  unfold trackNewsUrl, shift. cbn [List.filter]. destruct (truthy url).
  - rewrite !length_app, length_drop. cbn [length].
    destruct (Nat.ltb_spec cap (length recorded - (length recorded - cap) + 1))
      as [Hfull|Hroom].
    + rewrite tail_drop, <- drop_app_le by lia. rewrite drop_drop.
      f_equal. lia.
    + replace (length recorded - cap)%nat with 0%nat by lia.
      replace (length recorded + 1 - cap)%nat with 0%nat by lia.
      by rewrite !drop_0.
  - by rewrite app_nil_r.
Qed.

Lemma track_all_length cap urls : (length (track_all cap urls []) <= cap)%nat.
Proof. rewrite track_all_suffix. cbn zeta. rewrite length_drop. lia. Qed.

Lemma track_all_truthy cap urls :
  Forall (fun u => truthy u = true) (track_all cap urls []).
Proof.
  rewrite track_all_suffix. cbn zeta. apply Forall_drop.
  apply List.Forall_forall. intros u Hu. by apply List.filter_In in Hu as [_ ?].
Qed.

End DedupFacts.

(** C4. From the empty window, whatever is recorded, the window never
    holds more than the capacity; it is the last [cap] recorded
    identifiers in recording order, repeats included, so entries leave in
    the order they came.  Recording into a full window drops the front
    entry, recording into a window with room appends.  With capacity 3,
    recording x1, x2, x3, x4 leaves x2, x3, x4: x1 is gone, x4 is there;
    recording x1, x2, x1, x1, x3 leaves x1, x1, x3: seeing x1 again added
    entries at the back and pushed x2 out.  The code's capacity is 30. *)
Theorem dedup_window_bounded_fifo (cap : nat) (urls : list jsstr) :
  let recorded := List.filter truthy urls in
  let window := Dedup.track_all cap urls [] in
  (length window <= cap)%nat
  /\ window = drop (length recorded - cap) recorded
  /\ (forall url, truthy url = true -> length window = cap ->
        Dedup.trackNewsUrl cap url window = tail (window ++ [url])
        /\ length (Dedup.trackNewsUrl cap url window) = cap)
  /\ (forall url, truthy url = true -> (length window < cap)%nat ->
        Dedup.trackNewsUrl cap url window = window ++ [url])
  /\ (length (Dedup.track_all Dedup.MAX_RECENT urls []) <= 30)%nat
  /\ Dedup.track_all 3 [Some "x1"; Some "x2"; Some "x3"; Some "x4"] []
     = [Some "x2"; Some "x3"; Some "x4"]
  /\ Dedup.includes_url
       (Dedup.track_all 3 [Some "x1"; Some "x2"; Some "x3"; Some "x4"] [])
       (Some "x1") = false
  /\ Dedup.includes_url
       (Dedup.track_all 3 [Some "x1"; Some "x2"; Some "x3"; Some "x4"] [])
       (Some "x4") = true
  /\ Dedup.track_all 3
       [Some "x1"; Some "x2"; Some "x1"; Some "x1"; Some "x3"] []
     = [Some "x1"; Some "x1"; Some "x3"].
Proof.
  cbn zeta. split_and!.
  - apply track_all_length.
  - apply track_all_suffix.
  - intros url Hurl Hlen. unfold Dedup.trackNewsUrl. rewrite Hurl.
    rewrite length_app. cbn [length].
    destruct (Nat.ltb_spec cap (length (Dedup.track_all cap urls []) + 1));
      [|lia].
    split; [done|]. unfold Dedup.shift.
    rewrite tail_drop, length_drop, length_app. cbn [length]. lia.
  - intros url Hurl Hlen. unfold Dedup.trackNewsUrl. rewrite Hurl.
    rewrite length_app. cbn [length].
    by destruct (Nat.ltb_spec cap (length (Dedup.track_all cap urls []) + 1));
      [lia|].
  - apply (track_all_length Dedup.MAX_RECENT).
  - reflexivity.
  - by vm_compute.
  - by vm_compute.
  - reflexivity.
Qed.

(** C10. Recording [null], [undefined] or the empty string leaves any
    window as it was; no window the process can reach holds such an entry,
    so a membership check on a missing identifier answers false. *)
Theorem record_missing_identifier_noop (cap : nat) (recent : list jsstr)
  (urls : list jsstr) (url : jsstr) :
  truthy url = false ->
  Dedup.trackNewsUrl cap url recent = recent
  /\ Dedup.track_all cap (urls ++ [url]) [] = Dedup.track_all cap urls []
  /\ (url ∉ Dedup.track_all cap urls [])
  /\ Dedup.includes_url (Dedup.track_all cap urls []) url = false.
Proof.
  intros Hurl. assert (Hin : url ∉ Dedup.track_all cap urls []).
  { intros Hin. pose proof (track_all_truthy cap urls) as Hall.
    rewrite Forall_forall in Hall. apply Hall in Hin. congruence. }
  split_and!.
  - unfold Dedup.trackNewsUrl. by rewrite Hurl.
  - rewrite track_all_snoc. unfold Dedup.trackNewsUrl. by rewrite Hurl.
  - exact Hin.
  - unfold Dedup.includes_url. by apply bool_decide_eq_false.
Qed.

Lemma record_missing_identifier_noop_witness :
  Dedup.trackNewsUrl 30 None [Some "https://x.com/solana/status/1"]
  = [Some "https://x.com/solana/status/1"]
  /\ Dedup.trackNewsUrl 30 (Some "") [] = [].
Proof.
  split.
  - apply (record_missing_identifier_noop 30
             [Some "https://x.com/solana/status/1"] [] None).
    reflexivity.
  - apply (record_missing_identifier_noop 30 [] [] (Some "")).
    reflexivity.
Defined.

(** ** Relevance scorer *)

Section ScorerFacts.
Import Scanner.


Lemma scan_keywords_spec text category keywords acc :
  scan_keywords text category keywords acc =
  if existsb (fun kw => includes kw text) keywords
  then mkScore (score acc + 1) (matchedCategories acc ++ [category])
  else acc.
Proof.
  induction keywords as [|kw rest IH]; cbn [scan_keywords existsb]; [done|].
  by destruct (includes kw text).
Qed.

Lemma scan_categories_spec text table : forall acc,
  scan_categories text table acc =
  let hit := List.filter (category_matches text) table in
  mkScore (score acc + length hit) (matchedCategories acc ++ map fst hit).
Proof.
  induction table as [|[category keywords] rest IH]; intros [n cats];
    cbn [scan_categories List.filter score matchedCategories].
  - cbn. by rewrite Nat.add_0_r, app_nil_r.
  - rewrite IH, scan_keywords_spec. cbn zeta.
    change (category_matches text (category, keywords))
      with (existsb (fun kw => includes kw text) keywords).
    destruct (existsb _ keywords);
      cbn [score matchedCategories length map fst]; [|done].
    f_equal; [lia|]. by rewrite <- app_assoc.
Qed.

Lemma filter_length_le {A} (f : A -> bool) (l : list A) :
  (length (List.filter f l) <= length l)%nat.
Proof.
  induction l as [|x l IH]; cbn; [lia|]. destruct (f x); cbn; lia.
Qed.

End ScorerFacts.

(** C3. Over any table and text, the score is the number of categories
    with at least one keyword occurring in the text, the matched
    categories are exactly those, in table order, and the score is at most
    the number of categories; for a listing, scored against the fixed
    table on its case-folded text, that is at most 7.  More keywords of a
    category matching changes nothing: a category adds 1 or 0. *)
Theorem score_counts_matched_categories
  (table : list (string * list string)) (text : string) (l : Scanner.Listing) :
  let hit := List.filter (category_matches text) table in
  Scanner.score (Scanner.score_text table text) = length hit
  /\ Scanner.matchedCategories (Scanner.score_text table text) = map fst hit
  /\ (Scanner.score (Scanner.score_text table text) <= length table)%nat
  /\ (forall category keywords acc,
        let acc' := Scanner.scan_keywords text category keywords acc in
        Scanner.score acc' = Scanner.score acc
        \/ Scanner.score acc' = (Scanner.score acc + 1)%nat)
  /\ Scanner.scoreListing l
     = Scanner.score_text Scanner.CAPABILITY_KEYWORDS
         (toLowerCase
            (or_str (Scanner.title l) "" +:+ " "
             +:+ or_str (Scanner.description l) "" +:+ " "
             +:+ or_str (Scanner.slug l) ""))
  /\ Scanner.score (Scanner.scoreListing l)
     = length (Scanner.matchedCategories (Scanner.scoreListing l))
  /\ (Scanner.score (Scanner.scoreListing l) <= 7)%nat.
Proof.
  cbn zeta. unfold Scanner.scoreListing, Scanner.score_text.
  rewrite !scan_categories_spec. cbn zeta.
  cbn [Scanner.score Scanner.matchedCategories app]. split_and!.
  - done.
  - done.
  - apply filter_length_le.
  - intros category keywords acc. rewrite scan_keywords_spec.
    destruct (existsb _ keywords); cbn; auto.
  - done.
  - by rewrite length_map.
  - apply (filter_length_le _ Scanner.CAPABILITY_KEYWORDS).
Qed.

(** ** Candidate selection *)

Section SelectorFacts.
Import Scanner.


Lemma insert_by_perm x l : insert_by by_score_desc x l ≡ₚ x :: l.
Proof.
  induction l as [|y l IH]; cbn [insert_by]; [done|].
  destruct (0 <? by_score_desc x y)%Z; [|done].
  rewrite IH. apply Permutation_swap.
Qed.

Lemma sort_by_perm l : sort_by by_score_desc l ≡ₚ l.
Proof.
  induction l as [|x l IH]; cbn [sort_by]; [done|].
  by rewrite insert_by_perm, IH.
Qed.


Lemma insert_by_descending x l :
  descending l -> descending (insert_by by_score_desc x l).
Proof.
  unfold descending. induction 1 as [|y l Hl IH Hy]; cbn [insert_by].
  - repeat constructor.
  - unfold by_score_desc at 1.
    destruct (Z.ltb_spec 0 (Z.of_nat (cscore y) - Z.of_nat (cscore x))).
    + constructor; [done|].
      rewrite insert_by_perm. constructor; [lia|done].
    + constructor; [by constructor|].
      constructor; [lia|].
      eapply Forall_impl; [exact Hy|]. cbn. intros; lia.
Qed.

Lemma sort_by_descending l : descending (sort_by by_score_desc l).
Proof.
  induction l as [|x l IH]; cbn [sort_by]; [constructor|].
  by apply insert_by_descending.
Qed.

(** Sorting leaves the items of one score in the order they had. *)
Lemma insert_by_stable v x l :
  List.filter (score_is v) (insert_by by_score_desc x l)
  = List.filter (score_is v) (x :: l).
Proof.
  induction l as [|y l IH]; cbn [insert_by]; [done|].
  unfold by_score_desc at 1.
  destruct (Z.ltb_spec 0 (Z.of_nat (cscore y) - Z.of_nat (cscore x)));
    [|done].
  cbn [List.filter] in *. rewrite IH. unfold score_is.
  destruct (Nat.eqb_spec (cscore x) v), (Nat.eqb_spec (cscore y) v);
    try done; lia.
Qed.

Lemma sort_by_stable v l :
  List.filter (score_is v) (sort_by by_score_desc l)
  = List.filter (score_is v) l.
Proof.
  induction l as [|x l IH]; cbn [sort_by]; [done|].
  rewrite insert_by_stable. cbn [List.filter]. by rewrite IH.
Qed.

Lemma submit_each_requests env todo : forall n a,
  requests (submit_each env todo n a).2 = requests a ++ map cid todo.
Proof.
  induction todo as [|c rest IH]; intros n a; cbn [submit_each map].
  - by rewrite app_nil_r.
  - unfold submitWork. destruct (submission env (cid c)) as [body|];
      rewrite IH; cbn [requests]; by rewrite <- app_assoc.
Qed.


End SelectorFacts.

(** C2. The submission list of a scan is what the four steps give with
    minimum score 2 and cap 3 on the scored listings: those scoring below
    2 dropped, those already submitted dropped, the rest ordered by score
    descending with equal scores left in their original order, the first
    3 kept.  These are the requests the scan sends, in that order.  On
    scores 5, 5, 3, 1 with cap 2 the steps give the two listings scoring 5
    in their original order.  A scan with no candidate resolves normally
    with nothing submitted. *)
Theorem candidate_selection_steps (acted : gset string)
  (listings : list Scanner.Listing) (env : Scanner.Responses)
  (a : Scanner.Agent) :
  let scored := map Scanner.with_score listings in
  let kept :=
    List.filter (fun c => negb (bool_decide (Scanner.cid c ∈ acted)))
      (List.filter (fun c => (2 <=? Scanner.cscore c)%nat) scored) in
  let cands := Scanner.candidates acted listings in
  Scanner.toSubmit cands = Scanner.select_spec scored 2 acted 3
  /\ cands ≡ₚ kept
  /\ descending cands
  /\ (forall v, List.filter (score_is v) cands = List.filter (score_is v) kept)
  /\ Scanner.toSubmit cands = take 3 cands
  /\ (forall c, In c (Scanner.toSubmit cands) ->
        (2 <= Scanner.cscore c)%nat /\ Scanner.cid c ∉ acted)
  /\ (Scanner.discover env = Some listings -> listings <> [] ->
        Scanner.requests (Scanner.scanAndSubmit env a).2
        = Scanner.requests a
          ++ map Scanner.cid
               (Scanner.toSubmit
                  (Scanner.candidates (Scanner.submittedListings a) listings)))
  /\ (Scanner.discover env = Some listings ->
        Scanner.candidates (Scanner.submittedListings a) listings = [] ->
        exists r, Scanner.scanAndSubmit env a = (Returned r, a)
                  /\ Scanner.submitted r = 0%nat)
  /\ map Scanner.cscore
       (map Scanner.with_score [five_a; five_b; three_c; one_d])
     = [5; 5; 3; 1]%nat
  /\ Scanner.select_spec
       (map Scanner.with_score [five_a; five_b; three_c; one_d]) 2 ∅ 2
     = map Scanner.with_score [five_a; five_b]
  /\ Scanner.select_spec
       (map Scanner.with_score [three_c; five_a; one_d; five_b]) 2 ∅ 2
     = map Scanner.with_score [five_a; five_b].
Proof.
  cbn zeta. split_and!.
  - unfold Scanner.toSubmit, Scanner.candidates, Scanner.select_spec.
    do 3 f_equal. apply List.filter_ext. intros c.
    destruct (Nat.leb_spec 2 (Scanner.cscore c)),
      (Nat.ltb_spec (Scanner.cscore c) 2); done || lia.
  - apply sort_by_perm.
  - apply sort_by_descending.
  - intros v. apply sort_by_stable.
  - done.
  - intros c Hc. unfold Scanner.toSubmit in Hc.
    assert (Hin : In c (Scanner.candidates acted listings)).
    { rewrite <- (take_drop 3 (Scanner.candidates acted listings)).
      apply in_or_app. by left. }
    unfold Scanner.candidates in Hin.
    apply (Permutation_in _ (sort_by_perm _)) in Hin.
    apply List.filter_In in Hin as [Hin Hnew].
    apply List.filter_In in Hin as [_ Hscore].
    split; [by apply Nat.leb_le|].
    apply negb_true_iff, bool_decide_eq_false in Hnew. exact Hnew.
  - intros Hdisc Hne. unfold Scanner.scanAndSubmit. rewrite Hdisc.
    destruct listings as [|l ls]; [done|].
    pose proof (submit_each_requests env
      (Scanner.toSubmit
         (Scanner.candidates (Scanner.submittedListings a) (l :: ls))) 0 a)
      as Hreq.
    destruct (Scanner.submit_each _ _ _ _) as [n a']. exact Hreq.
  - intros Hdisc Hnone. unfold Scanner.scanAndSubmit. rewrite Hdisc.
    destruct listings as [|l ls]; [by eexists|].
    rewrite Hnone. cbn. by eexists.
  - by vm_compute.
  - by vm_compute.
  - by vm_compute.
Qed.

(** ** Backoff executor *)

Section BackoffFacts.
Import Backoff.
Context {T E : Type}.
Variables (fn : nat -> Settled T E) (maxRetries : nat) (delayMs : Z).


(** The loop entered at attempt [calls + 1] runs into the first success. *)
Lemma retry_loop_success k v : forall remaining calls lastError slept,
  (remaining + calls = maxRetries)%nat ->
  (calls < k <= maxRetries)%nat ->
  (forall j, (calls < j < k)%nat -> fails fn j) ->
  fn k = Resolved v ->
  retry_loop fn maxRetries delayMs remaining (S calls) lastError calls slept
  = mkRun (inl v) k (slept ++ map (backoff delayMs) (seq (S calls) (k - S calls))).
Proof.
  induction remaining as [|remaining IH];
    intros calls lastError slept Hrem Hk Hfail Hok; [lia|].
  cbn [retry_loop].
  destruct (decide (S calls = k)) as [->|Hne].
  - rewrite Hok, Nat.sub_diag. cbn. by rewrite app_nil_r.
  - destruct (Hfail (S calls)) as [e He]; [lia|]. rewrite He.
    destruct (Nat.ltb_spec (S calls) maxRetries); [|lia].
    rewrite (IH (S calls));
      [|lia|lia|intros; apply Hfail; lia|done].
    f_equal. rewrite <- app_assoc. f_equal.
    replace (k - S calls)%nat with (S (k - S (S calls))) by lia.
    reflexivity.
Qed.

(** The loop entered at attempt [calls + 1] with every attempt failing
    runs to the bound and throws the last error. *)
Lemma retry_loop_exhausted : forall remaining calls lastError slept,
  (remaining + calls = maxRetries)%nat ->
  (forall j, (calls < j <= maxRetries)%nat -> fails fn j) ->
  exists last,
    retry_loop fn maxRetries delayMs remaining (S calls) lastError calls slept
    = mkRun (inr last) maxRetries
        (slept ++ map (backoff delayMs) (seq (S calls) (maxRetries - S calls)))
    /\ (remaining = 0%nat -> last = lastError)
    /\ ((0 < remaining)%nat -> exists e,
          last = Some e /\ fn maxRetries = Rejected e).
Proof.
  induction remaining as [|remaining IH];
    intros calls lastError slept Hrem Hfail; cbn [retry_loop].
  - exists lastError. replace (maxRetries - S calls)%nat with 0%nat by lia.
    cbn. rewrite app_nil_r. split_and!; [by f_equal; lia|done|lia].
  - destruct (Hfail (S calls)) as [e He]; [lia|]. rewrite He.
    destruct (IH (S calls) (Some e)
                (if (S calls <? maxRetries)%nat
                 then slept ++ [backoff delayMs (S calls)] else slept))
      as (last & Hrun & Hzero & Hpos); [lia|intros; apply Hfail; lia|].
    exists last. split_and!.
    + unfold backoff at 1 in Hrun. rewrite Hrun. f_equal.
      destruct (Nat.ltb_spec (S calls) maxRetries).
      * rewrite <- app_assoc. f_equal.
        replace (maxRetries - S calls)%nat
          with (S (maxRetries - S (S calls))) by lia.
        reflexivity.
      * replace (maxRetries - S calls)%nat with 0%nat by lia.
        by replace (maxRetries - S (S calls))%nat with 0%nat by lia.
    + lia.
    + intros _. destruct remaining as [|remaining].
      * exists e. split; [by apply Hzero|].
        by replace maxRetries with (S calls) by lia.
      * apply Hpos. lia.
Qed.

End BackoffFacts.


(** C6. With [maxRetries] at least 1: if the first success comes at
    invocation [k] within the bound, [retry] invokes [fn] exactly [k] times
    and resolves to that success, having slept [delayMs * 2^(a-1)] after
    each failed attempt [a]; if every invocation up to the bound fails, it
    invokes [fn] exactly [maxRetries] times, sleeps after every attempt but
    the last, and throws the error of the last attempt.  Failing twice and
    then succeeding under a bound of 3 gives 3 invocations and success. *)
Theorem retry_invocation_count {T E : Type} (fn : nat -> Backoff.Settled T E)
  (maxRetries : nat) (delayMs : Z) :
  (1 <= maxRetries)%nat ->
  (forall k v,
     (1 <= k <= maxRetries)%nat ->
     (forall j, (1 <= j < k)%nat -> fails fn j) ->
     fn k = Backoff.Resolved v ->
     Backoff.retry fn maxRetries delayMs
     = Backoff.mkRun (inl v) k (map (backoff delayMs) (seq 1 (k - 1))))
  /\ ((forall j, (1 <= j <= maxRetries)%nat -> fails fn j) ->
      exists e,
        fn maxRetries = Backoff.Rejected e
        /\ Backoff.retry fn maxRetries delayMs
           = Backoff.mkRun (inr (Some e)) maxRetries
               (map (backoff delayMs) (seq 1 (maxRetries - 1))))
  /\ Backoff.retry flaky 3 100
     = Backoff.mkRun (inl "ok") 3 [100%Z; 200%Z].
Proof.
  intros Hm. split_and!.
  - intros k v Hk Hfail Hok. unfold Backoff.retry.
    rewrite (retry_loop_success fn maxRetries delayMs k v);
      [|lia|lia|intros; apply Hfail; lia|done].
    reflexivity.
  - intros Hfail. unfold Backoff.retry.
    destruct (retry_loop_exhausted fn maxRetries delayMs maxRetries 0 None [])
      as (last & Hrun & _ & Hpos); [lia|intros; apply Hfail; lia|].
    destruct Hpos as (e & -> & He); [lia|].
    exists e. split; [done|]. exact Hrun.
  - reflexivity.
Qed.

Lemma retry_invocation_count_witness :
  Backoff.retry flaky 3 100 = Backoff.mkRun (inl "ok") 3 [100%Z; 200%Z]
  /\ exists e,
       always_down 3 = Backoff.Rejected e
       /\ Backoff.retry always_down 3 100
          = Backoff.mkRun (inr (Some e)) 3 [100%Z; 200%Z].
Proof.
  assert (H : (1 <= 3)%nat) by lia. split.
  - apply (proj1 (retry_invocation_count flaky 3 100 H) 3 "ok").
    + lia.
    + intros j Hj. exists "ECONNRESET".
      destruct j as [|[|[|j]]]; (lia || reflexivity).
    + reflexivity.
  - apply (proj1 (proj2 (retry_invocation_count always_down 3 100 H))).
    intros j _. by exists "ETIMEDOUT".
Defined.

(** ** Pipelines *)

Section PipelineFacts.
Import Pipelines.



Lemma postToForum_run agent title body w :
  postToForum agent title body w
  = (Returned (match agent with
               | Some a => forum_response a title body
               | None => None
               end),
     mkWorld (vars w) (trace w ++ posted agent title body)).
Proof.
  destruct agent as [a|], w as [s tr]; cbn; [done|].
  by rewrite app_nil_r.
Qed.

Lemma runXNewsPost_cases env agent force w :
  let username :=
    show (Rotation.select force Rotation.X_NEWS_ACCOUNTS
            (xNewsIndex (vars w))) in
  let w1 := xnews_started force w in
  runXNewsPost env agent force w =
  match search env with
  | Threw e => (Threw e, w1)
  | Returned response =>
      match sort_by (by_date_desc env)
              (not_recent (recentNewsUrls (vars w))
                 (parsed_news env username response).1) with
      | [] => (Returned (NoNews ("No news found for @" +:+ username) username),
               w1)
      | topNews :: _ =>
          let title := generateNewsTitle env topNews in
          let forumTitle := xnews_title username title in
          let forumBody :=
            xnews_body username title topNews (generateNewsBanner env) in
          (Returned
             (NewsPosted username forumTitle forumBody
                (generateNewsBanner env) (news_url topNews)
                (posted_id agent forumTitle forumBody)),
           mkWorld
             (mkState (xNewsIndex (vars w1)) (modelIndex (vars w1))
                (pumpfunType (vars w1))
                (Dedup.trackNewsUrl Dedup.MAX_RECENT (news_url topNews)
                   (recentNewsUrls (vars w1))))
             (trace w1 ++ posted agent forumTitle forumBody))
      end
  end.
Proof.
  cbn zeta. unfold runXNewsPost, fetchLatestNews, xnews_started.
  unfold bind at 1 2 3 4 5. unfold read_vars, write_vars, send, await, ret.
  cbn [vars trace].
  destruct (search env) as [response|e]; [|done].
  destruct (parsed_news env _ response) as [newsItems profile].
  unfold bind at 1. cbn [fst vars trace recentNewsUrls].
  destruct (sort_by _ _) as [|topNews rest]; [done|].
  unfold bind. rewrite postToForum_run. cbn [vars trace].
  by destruct agent.
Qed.

Lemma runImageShowcase_cases env agent force w :
  let modelKey :=
    show (Rotation.select force Rotation.IMAGE_MODELS
            (modelIndex (vars w))) in
  let w1 :=
    mkWorld
      (mkState (xNewsIndex (vars w))
         (Rotation.advance force (modelIndex (vars w)))
         (pumpfunType (vars w)) (recentNewsUrls (vars w)))
      (trace w ++ [ImageGen modelKey]) in
  runImageShowcase env agent force w =
  match image_answer env with
  | Threw e => (Threw e, w1)
  | Returned imageUrl =>
      let prompt := (generateCreativePrompt env).1 in
      let theme := (generateCreativePrompt env).2 in
      let review := generateModelReview env modelKey theme in
      let forumTitle := showcase_title (model_name modelKey) theme in
      let forumBody :=
        showcase_body modelKey (model_name modelKey) theme prompt imageUrl
          review in
      (Returned
         (mkShowcaseResult modelKey (model_name modelKey) theme prompt
            imageUrl review forumTitle forumBody
            (posted_id agent forumTitle forumBody)),
       mkWorld (vars w1) (trace w1 ++ posted agent forumTitle forumBody))
  end.
Proof.
  cbn zeta. unfold runImageShowcase.
  unfold bind at 1 2. unfold read_vars, write_vars. cbn [vars trace].
  destruct (generateCreativePrompt env) as [prompt theme]. cbn [fst snd].
  unfold bind at 1 2. unfold send, await. cbn [vars trace].
  destruct (image_answer env) as [imageUrl|e]; [|done].
  unfold bind, ret. rewrite postToForum_run. cbn [vars trace].
  by destruct agent.
Qed.


Lemma runPumpFunPost_cases env agent force w :
  let kind := pump_kind force w in
  let isTrending := String.eqb kind "trending" in
  let label := if isTrending then "Trending Tokens" else "Top Movers" in
  let emoji := if isTrending then "🚀" else "📈" in
  let w1 :=
    mkWorld
      (mkState (xNewsIndex (vars w)) (modelIndex (vars w))
         (Rotation.alternate force (pumpfunType (vars w)))
         (recentNewsUrls (vars w)))
      (trace w ++ [PumpFetch (pump_feed kind)]) in
  runPumpFunPost env agent force w =
  match (if isTrending then trending_answer env else movers_answer env) with
  | Threw e => (Threw e, w1)
  | Returned data =>
      match (if isTrending then trending_tokens data
             else movers_tokens data) with
      | None | Some [] =>
          (Returned
             (NoTokens ("No " +:+ label +:+ " data available") kind), w1)
      | Some tokens =>
          let forumTitle := pump_title emoji label (now_title env) in
          let forumBody :=
            pump_body emoji label kind (now_body env) data tokens in
          (Returned
             (PumpPosted ("pumpfun_" +:+ kind) label forumTitle forumBody
                (summary data) (suggestions data) (length tokens)
                (posted_id agent forumTitle forumBody)),
           mkWorld (vars w1) (trace w1 ++ posted agent forumTitle forumBody))
      end
  end.
Proof.
  cbn zeta. unfold runPumpFunPost, pump_kind, pump_feed.
  unfold bind at 1 2 3 4. unfold read_vars, write_vars, send, await.
  cbn [vars trace].
  destruct (if String.eqb _ "trending" then trending_answer env
            else movers_answer env) as [data|e]; [|done].
  destruct (if String.eqb _ "trending" then trending_tokens data
            else movers_tokens data) as [[|token tokens]|]; [done| |done].
  unfold bind, ret. rewrite postToForum_run. cbn [vars trace].
  by destruct agent.
Qed.

End PipelineFacts.

Section TriggerFacts.
Import Pipelines.

Lemma searched_app l1 l2 : searched (l1 ++ l2) = searched l1 ++ searched l2.
Proof. apply omap_app. Qed.

Lemma generated_app l1 l2 : generated (l1 ++ l2) = generated l1 ++ generated l2.
Proof. apply omap_app. Qed.

Lemma fetched_kinds_app l1 l2 :
  fetched_kinds (l1 ++ l2) = fetched_kinds l1 ++ fetched_kinds l2.
Proof. apply omap_app. Qed.

Lemma forum_posts_app l1 l2 :
  forum_posts (l1 ++ l2) = forum_posts l1 ++ forum_posts l2.
Proof. apply omap_app. Qed.

Lemma without_posts_app l1 l2 :
  without_posts (l1 ++ l2) = without_posts l1 ++ without_posts l2.
Proof. apply List.filter_app. Qed.

Lemma searched_posted agent t b : searched (posted agent t b) = [].
Proof. by destruct agent. Qed.

Lemma generated_posted agent t b : generated (posted agent t b) = [].
Proof. by destruct agent. Qed.

Lemma fetched_kinds_posted agent t b : fetched_kinds (posted agent t b) = [].
Proof. by destruct agent. Qed.

Lemma without_posts_posted agent t b : without_posts (posted agent t b) = [].
Proof. by destruct agent. Qed.

(** Whatever the outside answers, a run of X News searches the account it
    selected and leaves the index moved by [Rotation.advance]; the other
    two selection bindings stay. *)
Lemma runXNewsPost_selection env agent force w :
  let w' := (runXNewsPost env agent force w).2 in
  searched (trace w')
  = searched (trace w)
    ++ [show (Rotation.select force Rotation.X_NEWS_ACCOUNTS
                (xNewsIndex (vars w)))]
  /\ selection (vars w')
     = (Rotation.advance force (xNewsIndex (vars w)), modelIndex (vars w),
        pumpfunType (vars w)).
Proof.
  cbn zeta. rewrite runXNewsPost_cases. cbn zeta. unfold xnews_started.
  destruct (search env) as [response|e];
    [destruct (sort_by _ _) as [|topNews rest]|];
    cbn [snd vars trace]; unfold selection;
    cbn [xNewsIndex modelIndex pumpfunType];
    by rewrite ?searched_app, ?searched_posted, ?app_nil_r.
Qed.

Lemma runImageShowcase_selection env agent force w :
  let w' := (runImageShowcase env agent force w).2 in
  generated (trace w')
  = generated (trace w)
    ++ [show (Rotation.select force Rotation.IMAGE_MODELS
                (modelIndex (vars w)))]
  /\ selection (vars w')
     = (xNewsIndex (vars w), Rotation.advance force (modelIndex (vars w)),
        pumpfunType (vars w)).
Proof.
  cbn zeta. rewrite runImageShowcase_cases. cbn zeta.
  destruct (image_answer env) as [imageUrl|e];
    cbn [snd vars trace]; unfold selection;
    cbn [xNewsIndex modelIndex pumpfunType];
    by rewrite ?generated_app, ?generated_posted, ?app_nil_r.
Qed.

Lemma runPumpFunPost_selection env agent force w :
  let w' := (runPumpFunPost env agent force w).2 in
  fetched_kinds (trace w')
  = fetched_kinds (trace w) ++ [pump_feed (pump_kind force w)]
  /\ selection (vars w')
     = (xNewsIndex (vars w), modelIndex (vars w),
        Rotation.alternate force (pumpfunType (vars w))).
Proof.
  cbn zeta. rewrite runPumpFunPost_cases. cbn zeta.
  destruct (if String.eqb _ "trending" then trending_answer env
            else movers_answer env) as [data|e];
    [destruct (if String.eqb _ "trending" then trending_tokens data
               else movers_tokens data) as [[|token tokens]|]|];
    cbn [snd vars trace]; unfold selection;
    cbn [xNewsIndex modelIndex pumpfunType];
    by rewrite ?fetched_kinds_app, ?fetched_kinds_posted, ?app_nil_r.
Qed.

Lemma xnews_triggers_spec agent envs : forall w,
  let w' := xnews_triggers agent envs w in
  searched (trace w')
  = searched (trace w)
    ++ map (fun k =>
              show (Rotation.X_NEWS_ACCOUNTS
                    !! ((xNewsIndex (vars w) + k)
                        mod length Rotation.X_NEWS_ACCOUNTS)%nat))
         (seq 0 (length envs))
  /\ xNewsIndex (vars w') = (xNewsIndex (vars w) + length envs)%nat.
Proof.
  induction envs as [|env envs IH]; intros w; cbn zeta.
  - cbn. by rewrite app_nil_r, Nat.add_0_r.
  - unfold xnews_triggers. cbn [fold_left length seq map].
    destruct (IH (cron_xnews agent env w)) as [Htrace Hindex].
    unfold xnews_triggers in Htrace, Hindex. rewrite Htrace, Hindex.
    destruct (runXNewsPost_selection env agent None w) as [Hs Hv].
    unfold cron_xnews. rewrite Hs. unfold selection in Hv.
    injection Hv as Hx _ _. rewrite Hx. cbn [Rotation.advance truthy].
    rewrite <- app_assoc, Nat.add_0_r. split; [|lia]. f_equal.
    cbn [app]. f_equal. rewrite <- seq_shift, map_map.
    apply map_ext. intros k. do 3 f_equal. lia.
Qed.

Lemma showcase_triggers_spec agent envs : forall w,
  let w' := showcase_triggers agent envs w in
  generated (trace w')
  = generated (trace w)
    ++ map (fun k =>
              show (Rotation.IMAGE_MODELS
                    !! ((modelIndex (vars w) + k)
                        mod length Rotation.IMAGE_MODELS)%nat))
         (seq 0 (length envs))
  /\ modelIndex (vars w') = (modelIndex (vars w) + length envs)%nat.
Proof.
  induction envs as [|env envs IH]; intros w; cbn zeta.
  - cbn. by rewrite app_nil_r, Nat.add_0_r.
  - unfold showcase_triggers. cbn [fold_left length seq map].
    destruct (IH (cron_showcase agent env w)) as [Htrace Hindex].
    unfold showcase_triggers in Htrace, Hindex. rewrite Htrace, Hindex.
    destruct (runImageShowcase_selection env agent None w) as [Hs Hv].
    unfold cron_showcase. rewrite Hs. unfold selection in Hv.
    injection Hv as _ Hm _. rewrite Hm. cbn [Rotation.advance truthy].
    rewrite <- app_assoc, Nat.add_0_r. split; [|lia]. f_equal.
    cbn [app]. f_equal. rewrite <- seq_shift, map_map.
    apply map_ext. intros k. do 3 f_equal. lia.
Qed.

End TriggerFacts.

(** C1. A non-forced trigger selects [options[index mod len]] and leaves
    the index one higher; [n] such triggers from [index] select the options
    at [index], [index + 1], ... modulo the length, so over three options
    from 0 they select the first, second, third, first, ... for any [n].
    The two rotating pipelines do so on every scheduled run, whatever the
    outside answers: the accounts searched and the models asked for follow
    that sequence, and the stored index grows by the number of runs. *)
Theorem rotation_select_then_advance (options : list string)
  (index n : nat) (a b c : string) (agent : option Pipelines.ForumAgent)
  (xenvs : list Pipelines.XNewsEnv) (senvs : list Pipelines.ShowcaseEnv)
  (w : Pipelines.World) :
  Rotation.next None options index
  = (options !! (index mod length options)%nat, S index)
  /\ Rotation.run_triggers options index n
     = (map (fun k => options !! ((index + k) mod length options)%nat)
          (seq 0 n),
        (index + n)%nat)
  /\ (Rotation.run_triggers [a; b; c] 0 n).1
     = map (fun k => match (k mod 3)%nat with
                     | 0 => Some a
                     | 1 => Some b
                     | _ => Some c
                     end) (seq 0 n)
  /\ Pipelines.searched
       (Pipelines.trace (Pipelines.xnews_triggers agent xenvs w))
     = Pipelines.searched (Pipelines.trace w)
       ++ map (fun k =>
                 Pipelines.show
                   (Rotation.X_NEWS_ACCOUNTS
                    !! ((Pipelines.xNewsIndex (Pipelines.vars w) + k)
                        mod 5)%nat))
            (seq 0 (length xenvs))
  /\ Pipelines.xNewsIndex
       (Pipelines.vars (Pipelines.xnews_triggers agent xenvs w))
     = (Pipelines.xNewsIndex (Pipelines.vars w) + length xenvs)%nat
  /\ Pipelines.generated
       (Pipelines.trace (Pipelines.showcase_triggers agent senvs w))
     = Pipelines.generated (Pipelines.trace w)
       ++ map (fun k =>
                 Pipelines.show
                   (Rotation.IMAGE_MODELS
                    !! ((Pipelines.modelIndex (Pipelines.vars w) + k)
                        mod 3)%nat))
            (seq 0 (length senvs))
  /\ Pipelines.modelIndex
       (Pipelines.vars (Pipelines.showcase_triggers agent senvs w))
     = (Pipelines.modelIndex (Pipelines.vars w) + length senvs)%nat.
Proof.
  split_and!.
  - reflexivity.
  - apply run_triggers_spec.
  - rewrite run_triggers_spec. cbn [fst length]. apply map_ext_in.
    intros k _. cbn [Nat.add].
    pose proof (Nat.mod_upper_bound k 3) as Hk.
    destruct (k mod 3)%nat as [|[|[|r]]]; try reflexivity. lia.
  - apply (xnews_triggers_spec agent xenvs w).
  - apply (xnews_triggers_spec agent xenvs w).
  - apply (showcase_triggers_spec agent senvs w).
  - apply (showcase_triggers_spec agent senvs w).
Qed.

(** C9. A run given a forced option (a non-empty string) uses it: X News
    searches the forced account, the showcase asks the forced model, the
    PumpFun run fetches the feed the forced type names.  Whatever the
    outside answers, the three selection bindings are after the run what
    they were before it. *)
Theorem forced_override_frame (force : jsstr) (agent : option Pipelines.ForumAgent)
  (xenv : Pipelines.XNewsEnv) (senv : Pipelines.ShowcaseEnv)
  (penv : Pipelines.PumpEnv) (w : Pipelines.World) :
  truthy force = true ->
  let wx := (Pipelines.runXNewsPost xenv agent force w).2 in
  let ws := (Pipelines.runImageShowcase senv agent force w).2 in
  let wp := (Pipelines.runPumpFunPost penv agent force w).2 in
  Pipelines.selection (Pipelines.vars wx)
  = Pipelines.selection (Pipelines.vars w)
  /\ Pipelines.searched (Pipelines.trace wx)
     = Pipelines.searched (Pipelines.trace w) ++ [Pipelines.show force]
  /\ Pipelines.selection (Pipelines.vars ws)
     = Pipelines.selection (Pipelines.vars w)
  /\ Pipelines.generated (Pipelines.trace ws)
     = Pipelines.generated (Pipelines.trace w) ++ [Pipelines.show force]
  /\ Pipelines.selection (Pipelines.vars wp)
     = Pipelines.selection (Pipelines.vars w)
  /\ Pipelines.fetched_kinds (Pipelines.trace wp)
     = Pipelines.fetched_kinds (Pipelines.trace w)
       ++ [if String.eqb (Pipelines.show force) "trending"
           then "trending" else "movers"].
Proof.
  intros Hforce. cbn zeta.
  destruct (runXNewsPost_selection xenv agent force w) as [Hxs Hxv].
  destruct (runImageShowcase_selection senv agent force w) as [Hss Hsv].
  destruct (runPumpFunPost_selection penv agent force w) as [Hps Hpv].
  rewrite Hxs, Hxv, Hss, Hsv, Hps, Hpv.
  unfold Rotation.select, Rotation.advance, Rotation.alternate, pump_kind,
    pump_feed, or_else.
  by rewrite Hforce.
Qed.

Lemma forced_override_frame_witness :
  Pipelines.selection
    (Pipelines.vars
       (Pipelines.runImageShowcase
          (Pipelines.mkShowcaseEnv 0 (Threw "timeout")
             (Returned "https://cdn.example/i.png") (Threw "timeout"))
          None (Some "seedream")
          (Pipelines.mkWorld Pipelines.initial [])).2)
  = (0, 0, "trending")%nat.
Proof.
  apply (forced_override_frame (Some "seedream") None
           (Pipelines.mkXNewsEnv (Threw "timeout") (Threw "timeout")
              (Threw "timeout") "" (fun _ => None))
           (Pipelines.mkShowcaseEnv 0 (Threw "timeout")
              (Returned "https://cdn.example/i.png") (Threw "timeout"))
           (Pipelines.mkPumpEnv (Threw "timeout") (Threw "timeout") "" "")
           (Pipelines.mkWorld Pipelines.initial [])).
  reflexivity.
Defined.

(** C8. From the same state and against the same answers of the outside,
    the preview of a pipeline and its live run settle alike: the preview's
    result is the live result with the forum post id blanked (so title and
    body are the same), both leave the same bindings behind and send the
    same requests apart from forum posts, and the preview sends no forum
    post. *)
Theorem preview_live_equivalence (force : jsstr) (agent : Pipelines.ForumAgent)
  (xenv : Pipelines.XNewsEnv) (senv : Pipelines.ShowcaseEnv)
  (penv : Pipelines.PumpEnv) (w : Pipelines.World) :
  let px := Pipelines.previewXNews xenv force w in
  let lx := Pipelines.runXNewsPost xenv (Some agent) force w in
  let ps := Pipelines.previewImageShowcase senv force w in
  let ls := Pipelines.runImageShowcase senv (Some agent) force w in
  let pp := Pipelines.previewPumpFun penv force w in
  let lp := Pipelines.runPumpFunPost penv (Some agent) force w in
  (px.1 = Pipelines.outcome_map Pipelines.xnews_blank lx.1
   /\ Pipelines.vars px.2 = Pipelines.vars lx.2
   /\ Pipelines.without_posts (Pipelines.trace px.2)
      = Pipelines.without_posts (Pipelines.trace lx.2)
   /\ Pipelines.forum_posts (Pipelines.trace px.2)
      = Pipelines.forum_posts (Pipelines.trace w))
  /\ (ps.1 = Pipelines.outcome_map Pipelines.showcase_blank ls.1
      /\ Pipelines.vars ps.2 = Pipelines.vars ls.2
      /\ Pipelines.without_posts (Pipelines.trace ps.2)
         = Pipelines.without_posts (Pipelines.trace ls.2)
      /\ Pipelines.forum_posts (Pipelines.trace ps.2)
         = Pipelines.forum_posts (Pipelines.trace w))
  /\ (pp.1 = Pipelines.outcome_map Pipelines.pump_blank lp.1
      /\ Pipelines.vars pp.2 = Pipelines.vars lp.2
      /\ Pipelines.without_posts (Pipelines.trace pp.2)
         = Pipelines.without_posts (Pipelines.trace lp.2)
      /\ Pipelines.forum_posts (Pipelines.trace pp.2)
         = Pipelines.forum_posts (Pipelines.trace w)).
Proof.
  cbn zeta.
  unfold Pipelines.previewXNews, Pipelines.previewImageShowcase,
    Pipelines.previewPumpFun.
  rewrite !runXNewsPost_cases, !runImageShowcase_cases,
    !runPumpFunPost_cases.
  cbn zeta. unfold xnews_started. split_and!.
  all: repeat match goal with
         | |- context [match ?x with _ => _ end] => destruct x
         end.
  all: cbn [fst snd Pipelines.vars Pipelines.trace Pipelines.outcome_map
            Pipelines.xnews_blank Pipelines.pump_blank
            Pipelines.showcase_blank posted posted_id
            Pipelines.sc_model Pipelines.sc_modelName Pipelines.sc_theme
            Pipelines.sc_prompt Pipelines.sc_imageUrl Pipelines.sc_review
            Pipelines.sc_title Pipelines.sc_body].
  all: rewrite ?without_posts_app, ?forum_posts_app, ?app_nil_r; try done.
Qed.

(** ** Recording and publication *)


(** Whatever the agent is and whatever the forum answers, a run that
    found a post leaves the window with that post's URL recorded. *)
Lemma posted_result_records env agent force w u t b banner src pid :
  (Pipelines.runXNewsPost env agent force w).1
  = Returned (Pipelines.NewsPosted u t b banner src pid) ->
  Pipelines.recentNewsUrls
    (Pipelines.vars (Pipelines.runXNewsPost env agent force w).2)
  = Dedup.trackNewsUrl Dedup.MAX_RECENT src
      (Pipelines.recentNewsUrls (Pipelines.vars w)).
Proof.
  rewrite runXNewsPost_cases. cbn zeta. unfold xnews_started.
  destruct (Pipelines.search env) as [response|e]; [|done].
  destruct (sort_by _ _) as [|topNews rest]; [done|].
  cbn [fst snd Pipelines.vars Pipelines.recentNewsUrls].
  intros [= _ _ _ _ <- _]. done.
Qed.

(** C5. On the process as started, a preview that finds one post records
    its URL although no forum post is sent, and so does a live run whose
    forum request fails; a live run that follows the preview against the
    same search answer then finds no news.  (A run that finds no news, or
    whose search throws, leaves the window alone.) *)
Theorem unpublished_url_is_recorded :
  let preview := Pipelines.previewXNews upgrade_env (Some "solana") fresh in
  let failed :=
    Pipelines.runXNewsPost upgrade_env (Some forum_down) (Some "solana")
      fresh in
  let later :=
    Pipelines.runXNewsPost upgrade_env (Some forum_up) (Some "solana")
      preview.2 in
  Pipelines.forum_posts (Pipelines.trace preview.2) = []
  /\ Pipelines.recentNewsUrls (Pipelines.vars preview.2)
     = [Some "https://x.com/solana/status/1"]
  /\ (exists title body,
        failed.1
        = Returned
            (Pipelines.NewsPosted "solana" title body None
               (Some "https://x.com/solana/status/1") None))
  /\ Pipelines.recentNewsUrls (Pipelines.vars failed.2)
     = [Some "https://x.com/solana/status/1"]
  /\ later.1 = Returned (Pipelines.NoNews "No news found for @solana" "solana")
  /\ Pipelines.forum_posts (Pipelines.trace later.2) = [].
Proof.
  cbn zeta. split_and!; by vm_compute; repeat eexists.
Qed.

(** ** Scheduler *)

(** The first statements the scheduler gives a run are those the
    pipelines execute: whatever the outside answers, a run leaves the
    selection bindings as [Scheduler.start] has them. *)
Lemma start_matches_runs force agent xenv senv penv w :
  Pipelines.selection
    (Pipelines.vars (Pipelines.runXNewsPost xenv agent force w).2)
  = Pipelines.selection
      (Scheduler.start Scheduler.XNews force (Pipelines.vars w)).2
  /\ Pipelines.selection
       (Pipelines.vars (Pipelines.runImageShowcase senv agent force w).2)
     = Pipelines.selection
         (Scheduler.start Scheduler.Showcase force (Pipelines.vars w)).2
  /\ Pipelines.selection
       (Pipelines.vars (Pipelines.runPumpFunPost penv agent force w).2)
     = Pipelines.selection
         (Scheduler.start Scheduler.PumpFun force (Pipelines.vars w)).2.
Proof.
  destruct (runXNewsPost_selection xenv agent force w) as [_ ->].
  destruct (runImageShowcase_selection senv agent force w) as [_ ->].
  destruct (runPumpFunPost_selection penv agent force w) as [_ ->].
  done.
Qed.


(** C7, as the code has it.  A cron tick for a pipeline always starts a
    run of it: the run joins those in flight, after the option its first
    statements chose, whether or not earlier runs of that pipeline are
    still in flight.  The count of runs in flight grows by one for the
    ticked pipeline and stays as it was for the other pipelines. *)
Theorem tick_always_starts_a_run (s : Scheduler.Sched)
  (p q : Scheduler.Pipeline) :
  Scheduler.inflight (Scheduler.step s (Scheduler.Tick p))
  = Scheduler.inflight s
    ++ [(p, (Scheduler.start p None (Scheduler.vars s)).1)]
  /\ Scheduler.running q (Scheduler.step s (Scheduler.Tick p))
     = (Scheduler.running q s + (if decide (p = q) then 1 else 0))%nat.
Proof.
  unfold Scheduler.step, Scheduler.begin, Scheduler.running.
  destruct (Scheduler.start p None (Scheduler.vars s)) as [chosen vars'].
  cbn [Scheduler.inflight fst]. split; [done|].
  rewrite List.filter_app, length_app. cbn [List.filter fst].
  destruct (decide (p = q)) as [->|Hne].
  - by rewrite bool_decide_eq_true_2.
  - by rewrite bool_decide_eq_false_2.
Qed.

(** C7, as stated, fails: after a tick for X News, with that run still in
    flight, a second tick for X News is not a no-op; two runs of X News
    are then in flight, the second on the next account.  The same holds
    for a tick that follows a request to the trigger route. *)
Lemma second_tick_overlaps :
  let s1 := Scheduler.step Scheduler.idle (Scheduler.Tick Scheduler.XNews) in
  let s2 := Scheduler.step s1 (Scheduler.Tick Scheduler.XNews) in
  let r1 :=
    Scheduler.step Scheduler.idle
      (Scheduler.Request Scheduler.XNews (Some "zauthx402")) in
  let r2 := Scheduler.step r1 (Scheduler.Tick Scheduler.XNews) in
  Scheduler.running Scheduler.XNews s1 = 1%nat
  /\ s2 <> s1
  /\ Scheduler.running Scheduler.XNews s2 = 2%nat
  /\ Scheduler.inflight s2
     = [(Scheduler.XNews, "solana"); (Scheduler.XNews, "dexteraisol")]
  /\ r2 <> r1
  /\ Scheduler.inflight r2
     = [(Scheduler.XNews, "zauthx402"); (Scheduler.XNews, "solana")].
Proof.
  cbn zeta. split_and!; try by vm_compute.
  all: intros Heq; apply (f_equal Scheduler.inflight) in Heq;
    vm_compute in Heq; discriminate Heq.
Qed.

(** * Further properties *)

(** ** Splitting and joining *)

Section SplitFacts.

Lemma split_on_nonempty c s : split_on c s <> [].
Proof.
  destruct s as [|d rest]; cbn [split_on]; [done|].
  destruct (Ascii.eqb d c); [done|]. by destruct (split_on c rest).
Qed.

Lemma split_on_fields c s :
  Forall (fun w => Runs.has_char c w = false) (split_on c s).
Proof.
  induction s as [|d rest IH]; cbn [split_on].
  - by repeat constructor.
  - destruct (Ascii.eqb d c) eqn:Hd; [by constructor|].
    destruct (split_on c rest) as [|w ws].
    + repeat constructor. cbn. by rewrite Hd.
    + inversion IH as [|? ? Hw Hws]; subst. constructor; [|done].
      cbn. by rewrite Hd.
Qed.

Lemma join_cons sep p q rest :
  join sep (p :: q :: rest) = p +:+ sep +:+ join sep (q :: rest).
Proof. reflexivity. Qed.

Lemma split_on_app_field c w s :
  Runs.has_char c w = false ->
  split_on c (w +:+ String c s) = w :: split_on c s.
Proof.
  induction w as [|d w IH]; simpl.
  - intros _. by rewrite Ascii.eqb_refl.
  - intros [Hd Hw]%orb_false_iff. rewrite Hd. fold String.append.
    by rewrite (IH Hw).
Qed.

Lemma split_on_field c w :
  Runs.has_char c w = false -> split_on c w = [w].
Proof.
  induction w as [|d w IH]; cbn [Runs.has_char split_on]; [done|].
  intros [Hd Hw]%orb_false_iff. by rewrite Hd, (IH Hw).
Qed.

(** Splitting a join of separator-free fields gives the fields back. *)
Lemma split_on_join c parts :
  parts <> [] ->
  Forall (fun w => Runs.has_char c w = false) parts ->
  split_on c (join (String c EmptyString) parts) = parts.
Proof.
  intros Hne Hall. induction Hall as [|w ws Hw Hws IH]; [done|].
  destruct ws as [|q rest].
  - cbn [join]. by apply split_on_field.
  - rewrite join_cons.
    change (String c EmptyString +:+ join (String c EmptyString) (q :: rest))
      with (String c (join (String c EmptyString) (q :: rest))).
    rewrite split_on_app_field by done. f_equal. by apply IH.
Qed.

(** Joining the fields of a split gives the string back. *)
Lemma join_split_on c s : join (String c EmptyString) (split_on c s) = s.
Proof.
  induction s as [|d rest IH]; cbn [split_on]; [done|].
  pose proof (split_on_nonempty c rest) as Hnil.
  destruct (Ascii.eqb_spec d c) as [->|Hne];
    destruct (split_on c rest) as [|w ws] eqn:Hsplit; try done.
  - rewrite join_cons, <- IH. reflexivity.
  - destruct ws as [|q ws]; rewrite <- IH; reflexivity.
Qed.

End SplitFacts.

(** ** Runs of the pipelines *)

Section RunFacts.
Import Pipelines.

Lemma insert_by_perm_any {A} (cmp : A -> A -> Z) x l :
  insert_by cmp x l ≡ₚ x :: l.
Proof.
  induction l as [|y l IH]; cbn [insert_by]; [done|].
  destruct (0 <? cmp x y)%Z; [|done].
  rewrite IH. apply Permutation_swap.
Qed.

Lemma sort_by_perm_any {A} (cmp : A -> A -> Z) l : sort_by cmp l ≡ₚ l.
Proof.
  induction l as [|x l IH]; cbn [sort_by]; [done|].
  by rewrite insert_by_perm_any, IH.
Qed.




Lemma forum_posts_posted agent t b :
  forum_posts (posted agent t b) = Runs.sent_by agent [(t, b)].
Proof. by destruct agent. Qed.

End RunFacts.





(** X3. A run of X News that reports no post, because the search threw or
    nothing new was found, leaves the window as it was and sends nothing
    to the forum. *)
Theorem unreported_run_leaves_window (env : Pipelines.XNewsEnv)
  (agent : option Pipelines.ForumAgent) (force : jsstr)
  (w : Pipelines.World) :
  Runs.xnews_reported (Pipelines.runXNewsPost env agent force w).1 = [] ->
  Pipelines.recentNewsUrls
    (Pipelines.vars (Pipelines.runXNewsPost env agent force w).2)
  = Pipelines.recentNewsUrls (Pipelines.vars w)
  /\ Pipelines.forum_posts
       (Pipelines.trace (Pipelines.runXNewsPost env agent force w).2)
     = Pipelines.forum_posts (Pipelines.trace w).
Proof.
  rewrite runXNewsPost_cases. cbn zeta. unfold xnews_started.
  destruct (Pipelines.search env) as [response|e];
    [destruct (sort_by _ _) as [|topNews rest]|];
    cbn [fst snd Pipelines.vars Pipelines.trace Pipelines.recentNewsUrls
         Runs.xnews_reported];
    intros Hnone; try done.
  all: by rewrite forum_posts_app, app_nil_r.
Qed.

Lemma unreported_run_leaves_window_witness :
  Pipelines.recentNewsUrls
    (Pipelines.vars
       (Pipelines.runXNewsPost
          (Pipelines.mkXNewsEnv (Threw "timeout") (Threw "timeout")
             (Threw "timeout") "" (fun _ => None))
          (Some forum_up) None fresh).2)
  = [].
Proof.
  apply (unreported_run_leaves_window
           (Pipelines.mkXNewsEnv (Threw "timeout") (Threw "timeout")
              (Threw "timeout") "" (fun _ => None))
           (Some forum_up) None fresh).
  reflexivity.
Defined.

(** X4. What a run sends to the forum is what it reports: a run with an agent
    sends exactly one post, with the title and body of its result, when it
    reports a post, and none otherwise; a run without an agent sends
    none. *)
Theorem forum_posts_are_what_runs_report
  (agent : option Pipelines.ForumAgent) (force : jsstr)
  (xenv : Pipelines.XNewsEnv) (senv : Pipelines.ShowcaseEnv)
  (penv : Pipelines.PumpEnv) (w : Pipelines.World) :
  let rx := Pipelines.runXNewsPost xenv agent force w in
  let rs := Pipelines.runImageShowcase senv agent force w in
  let rp := Pipelines.runPumpFunPost penv agent force w in
  Pipelines.forum_posts (Pipelines.trace rx.2)
  = Pipelines.forum_posts (Pipelines.trace w)
    ++ Runs.sent_by agent (Runs.xnews_reported rx.1)
  /\ Pipelines.forum_posts (Pipelines.trace rs.2)
     = Pipelines.forum_posts (Pipelines.trace w)
       ++ Runs.sent_by agent (Runs.showcase_reported rs.1)
  /\ Pipelines.forum_posts (Pipelines.trace rp.2)
     = Pipelines.forum_posts (Pipelines.trace w)
       ++ Runs.sent_by agent (Runs.pump_reported rp.1).
Proof.
  cbn zeta.
  rewrite runXNewsPost_cases, runImageShowcase_cases, runPumpFunPost_cases.
  cbn zeta. unfold xnews_started. split_and!.
  - destruct (Pipelines.search xenv) as [response|e];
      [destruct (sort_by _ _) as [|topNews rest]|];
      cbn [fst snd Pipelines.vars Pipelines.trace Runs.xnews_reported];
      rewrite ?forum_posts_app, ?forum_posts_posted;
      destruct agent; cbn [Runs.sent_by]; by rewrite ?app_nil_r.
  - destruct (Pipelines.image_answer senv) as [imageUrl|e];
      cbn [fst snd Pipelines.vars Pipelines.trace Runs.showcase_reported
           Pipelines.sc_title Pipelines.sc_body];
      rewrite ?forum_posts_app, ?forum_posts_posted;
      destruct agent; cbn [Runs.sent_by]; by rewrite ?app_nil_r.
  - destruct (if String.eqb _ "trending" then Pipelines.trending_answer penv
              else Pipelines.movers_answer penv) as [data|e];
      [destruct (if String.eqb _ "trending"
                 then Pipelines.trending_tokens data
                 else Pipelines.movers_tokens data) as [[|token tokens]|]|];
      cbn [fst snd Pipelines.vars Pipelines.trace Runs.pump_reported];
      rewrite ?forum_posts_app, ?forum_posts_posted;
      destruct agent; cbn [Runs.sent_by]; by rewrite ?app_nil_r.
Qed.

(** X5. Each pipeline writes its own binding only: X News leaves the model
    index and the PumpFun type alone, the showcase and PumpFun Intel leave
    the news index and the window alone, and neither touches the other's
    binding, whatever the outside answers and whether or not an option is
    forced. *)
Theorem pipelines_write_their_own_binding
  (agent : option Pipelines.ForumAgent) (force : jsstr)
  (xenv : Pipelines.XNewsEnv) (senv : Pipelines.ShowcaseEnv)
  (penv : Pipelines.PumpEnv) (w : Pipelines.World) :
  let sx := Pipelines.vars (Pipelines.runXNewsPost xenv agent force w).2 in
  let ss := Pipelines.vars (Pipelines.runImageShowcase senv agent force w).2 in
  let sp := Pipelines.vars (Pipelines.runPumpFunPost penv agent force w).2 in
  let s := Pipelines.vars w in
  (Pipelines.modelIndex sx = Pipelines.modelIndex s
   /\ Pipelines.pumpfunType sx = Pipelines.pumpfunType s)
  /\ (Pipelines.xNewsIndex ss = Pipelines.xNewsIndex s
      /\ Pipelines.pumpfunType ss = Pipelines.pumpfunType s
      /\ Pipelines.recentNewsUrls ss = Pipelines.recentNewsUrls s)
  /\ (Pipelines.xNewsIndex sp = Pipelines.xNewsIndex s
      /\ Pipelines.modelIndex sp = Pipelines.modelIndex s
      /\ Pipelines.recentNewsUrls sp = Pipelines.recentNewsUrls s).
Proof.
  cbn zeta.
  rewrite runXNewsPost_cases, runImageShowcase_cases, runPumpFunPost_cases.
  cbn zeta. unfold xnews_started. split_and!.
  1-2: by destruct (Pipelines.search xenv) as [response|e];
         [destruct (sort_by _ _) as [|topNews rest]|].
  1-3: by destruct (Pipelines.image_answer senv) as [imageUrl|e].
  all: by destruct (if String.eqb _ "trending"
                    then Pipelines.trending_answer penv
                    else Pipelines.movers_answer penv) as [data|e];
         [destruct (if String.eqb _ "trending"
                    then Pipelines.trending_tokens data
                    else Pipelines.movers_tokens data)
            as [[|token tokens]|]|].
Qed.

Section AlternationFacts.
Import Pipelines.

Lemma iter_shift {A} (f : A -> A) k x :
  Nat.iter k f (f x) = Nat.iter (S k) f x.
Proof.
  induction k as [|k IH]; [done|].
  change (f (Nat.iter k f (f x)) = f (Nat.iter (S k) f x)).
  by rewrite IH.
Qed.

Lemma pumpfun_triggers_spec agent envs : forall w,
  let w' := Runs.pumpfun_triggers agent envs w in
  fetched_kinds (trace w')
  = fetched_kinds (trace w)
    ++ map (fun k =>
              pump_feed (Nat.iter k Rotation.toggle (pumpfunType (vars w))))
         (seq 0 (length envs))
  /\ pumpfunType (vars w')
     = Nat.iter (length envs) Rotation.toggle (pumpfunType (vars w)).
Proof.
  induction envs as [|env envs IH]; intros w; cbn zeta.
  - cbn. by rewrite app_nil_r.
  - unfold Runs.pumpfun_triggers. cbn [fold_left length seq map].
    destruct (IH (cron_pumpfun agent env w)) as [Htrace Htype].
    unfold Runs.pumpfun_triggers in Htrace, Htype. rewrite Htrace, Htype.
    destruct (runPumpFunPost_selection env agent None w) as [Hs Hv].
    unfold cron_pumpfun. rewrite Hs. unfold selection in Hv.
    injection Hv as _ _ Hp. rewrite Hp.
    cbn [Rotation.alternate truthy].
    rewrite <- app_assoc. split.
    + f_equal. cbn [app]. f_equal. rewrite <- seq_shift, map_map.
      apply map_ext. intros k. f_equal. apply iter_shift.
    + apply iter_shift.
Qed.

Lemma toggle_iter t k :
  t = "trending" \/ t = "movers" ->
  Nat.iter k Rotation.toggle t = if Nat.even k then t else Rotation.toggle t.
Proof.
  intros Ht. induction k as [|k IH]; [done|].
  change (Nat.iter (S k) Rotation.toggle t)
    with (Rotation.toggle (Nat.iter k Rotation.toggle t)).
  rewrite IH, Nat.even_succ, <- Nat.negb_even.
  destruct (Nat.even k); cbn [negb]; [done|].
  by destruct Ht as [-> | ->].
Qed.

End AlternationFacts.

(** X6. From a type that is [trending] or [movers], successive scheduled runs
    of PumpFun Intel fetch the two feeds in turn, beginning with the stored
    type, whatever the feeds answer; after [n] runs the stored type is the
    starting one when [n] is even and the other one when [n] is odd. *)
Theorem pumpfun_feeds_alternate (agent : option Pipelines.ForumAgent)
  (envs : list Pipelines.PumpEnv) (w : Pipelines.World) :
  let t := Pipelines.pumpfunType (Pipelines.vars w) in
  t = "trending" \/ t = "movers" ->
  Pipelines.fetched_kinds
    (Pipelines.trace (Runs.pumpfun_triggers agent envs w))
  = Pipelines.fetched_kinds (Pipelines.trace w)
    ++ map (fun k => if Nat.even k then t else Rotation.toggle t)
         (seq 0 (length envs))
  /\ Pipelines.pumpfunType
       (Pipelines.vars (Runs.pumpfun_triggers agent envs w))
     = (if Nat.even (length envs) then t else Rotation.toggle t)
  /\ Rotation.toggle (Rotation.toggle t) = t.
Proof.
  cbn zeta. intros Ht.
  destruct (pumpfun_triggers_spec agent envs w) as [Htrace Htype].
  rewrite Htrace, Htype. split_and!.
  - f_equal. apply map_ext. intros k. rewrite toggle_iter by done.
    destruct (Nat.even k), Ht as [-> | ->]; reflexivity.
  - by apply toggle_iter.
  - by destruct Ht as [-> | ->].
Qed.

Lemma pumpfun_feeds_alternate_witness :
  Pipelines.fetched_kinds
    (Pipelines.trace
       (Runs.pumpfun_triggers None
          (replicate 3
             (Pipelines.mkPumpEnv (Threw "timeout") (Threw "timeout") "" ""))
          fresh))
  = ["trending"; "movers"; "trending"].
Proof.
  apply (pumpfun_feeds_alternate None
           (replicate 3
              (Pipelines.mkPumpEnv (Threw "timeout") (Threw "timeout") "" ""))
           fresh).
  by left.
Defined.

(** X7. When Grok gives no usable title, the title of a news post is the
    first four space-separated words of the post's title (or of its text,
    or of "News Update"), joined by single spaces: splitting it at spaces
    gives those words back, at most four of them. *)
Theorem fallback_title_is_first_four_words (env : Pipelines.XNewsEnv)
  (topNews : Pipelines.NewsItem) :
  truthy (Pipelines.or_catch (Pipelines.title_answer env) None) = false ->
  let words := split_on " "%char (Runs.title_source topNews) in
  Pipelines.generateNewsTitle env topNews = join " " (take 4 words)
  /\ split_on " "%char (Pipelines.generateNewsTitle env topNews)
     = take 4 words
  /\ (1 <= length (split_on " "%char
                     (Pipelines.generateNewsTitle env topNews)) <= 4)%nat.
Proof.
  intros Hnone. cbn zeta.
  assert (Htitle : Pipelines.generateNewsTitle env topNews
                   = join " " (take 4 (split_on " "%char
                                         (Runs.title_source topNews)))).
  { unfold Pipelines.generateNewsTitle.
    destruct (Pipelines.or_catch _ _) as [t|]; [|reflexivity].
    cbn [truthy] in Hnone. apply negb_false_iff in Hnone.
    unfold or_str at 1. rewrite Hnone. reflexivity. }
  assert (Hsplit : split_on " "%char (Pipelines.generateNewsTitle env topNews)
                   = take 4 (split_on " "%char (Runs.title_source topNews))).
  { rewrite Htitle. apply split_on_join.
    - pose proof (split_on_nonempty " "%char (Runs.title_source topNews)).
      by destruct (split_on _ _).
    - apply Forall_take, split_on_fields. }
  split_and!; [done|done| |].
  - rewrite Hsplit.
    pose proof (split_on_nonempty " "%char (Runs.title_source topNews)).
    destruct (split_on _ _); [done|]. cbn. lia.
  - rewrite Hsplit, length_take. lia.
Qed.

Lemma fallback_title_is_first_four_words_witness :
  Pipelines.generateNewsTitle upgrade_env
    (Pipelines.mkNewsItem None "Solana ships a major mainnet upgrade today"
       "" "solana" "" "Neutral")
  = "Solana ships a major".
Proof.
  apply (fallback_title_is_first_four_words upgrade_env
           (Pipelines.mkNewsItem None
              "Solana ships a major mainnet upgrade today" "" "solana" ""
              "Neutral")).
  reflexivity.
Defined.

(** ** Retry, for any operation *)

Section RetryAnyFacts.
Import Backoff.
Context {T E : Type}.
Variables (fn : nat -> Settled T E) (maxRetries : nat) (delayMs : Z).

Lemma retry_loop_any : forall remaining calls lastError slept,
  (remaining + calls = maxRetries)%nat ->
  let r :=
    retry_loop fn maxRetries delayMs remaining (S calls) lastError calls
      slept in
  (calls <= invocations r <= maxRetries)%nat
  /\ ((0 < remaining)%nat -> (calls < invocations r)%nat)
  /\ waits r
     = slept
       ++ map (backoff delayMs)
            (seq (S calls) (invocations r - S calls))
  /\ (forall j, (calls < j < invocations r)%nat -> fails fn j)
  /\ match settled r with
     | inl v => fn (invocations r) = Resolved v /\ (calls < invocations r)%nat
     | inr _ =>
         invocations r = maxRetries
         /\ forall j, (calls < j <= maxRetries)%nat -> fails fn j
     end.
Proof.
  induction remaining as [|remaining IH]; intros calls lastError slept Hrem;
    cbn zeta; cbn [retry_loop].
  - cbn [invocations waits settled]. split_and!; try lia.
    replace (calls - S calls)%nat with 0%nat by lia.
    cbn. by rewrite app_nil_r.
  - destruct (fn (S calls)) as [v|e] eqn:Hfn.
    + cbn [invocations waits settled]. split_and!; try lia; [|done].
      replace (S calls - S calls)%nat with 0%nat by lia.
      cbn. by rewrite app_nil_r.
    + specialize (IH (S calls) (Some e)
                    (if (S calls <? maxRetries)%nat
                     then slept ++ [(delayMs * 2 ^ Z.of_nat (S calls - 1))%Z]
                     else slept)).
      cbn zeta in IH.
      destruct IH as (Hcount & Hmore & Hwaits & Hfails & Hend); [lia|].
      set (r := retry_loop _ _ _ _ _ _ _ _) in *.
      split; [lia|]. split; [lia|]. split; [|split].
      * rewrite Hwaits.
        destruct (Nat.ltb_spec (S calls) maxRetries) as [Hlt|Hge].
        -- rewrite <- app_assoc. f_equal.
           replace (invocations r - S calls)%nat
             with (S (invocations r - S (S calls))) by lia.
           reflexivity.
        -- replace (invocations r - S (S calls))%nat with 0%nat by lia.
           replace (invocations r - S calls)%nat with 0%nat by lia.
           done.
      * intros j Hj. destruct (decide (j = S calls)) as [->|Hne].
        -- by exists e.
        -- apply Hfails. lia.
      * destruct (settled r) as [v|last].
        -- destruct Hend. split; [done|lia].
        -- destruct Hend as [Hm Hall]. split; [done|].
           intros j Hj. destruct (decide (j = S calls)) as [->|Hne].
           ++ by exists e.
           ++ apply Hall. lia.
Qed.

Lemma sum_ms_app l1 l2 :
  Upload.sum_ms (l1 ++ l2) = (Upload.sum_ms l1 + Upload.sum_ms l2)%Z.
Proof.
  unfold Upload.sum_ms. induction l1 as [|z l1 IH]; cbn; [done|].
  rewrite IH. lia.
Qed.

Lemma sum_backoff k :
  Upload.sum_ms (map (backoff delayMs) (seq 1 k))
  = (delayMs * (2 ^ Z.of_nat k - 1))%Z.
Proof.
  induction k as [|k IH]; [cbn; lia|].
  rewrite seq_S, map_app, sum_ms_app, IH. cbn [map Nat.add].
  unfold backoff, Upload.sum_ms. cbn [foldr].
  replace (S k - 1)%nat with k by lia.
  rewrite Nat2Z.inj_succ, Z.pow_succ_r by lia. lia.
Qed.

End RetryAnyFacts.

(** X8. Whatever the operation does, [retry] invokes it at most [maxRetries]
    times, every invocation before the last one made has failed, and the
    timeouts slept are [delayMs * 2^(a-1)] after each attempt [a] but the
    last one made, [delayMs * (2^(n-1) - 1)] in all after [n] invocations.
    It resolves exactly to what the last invocation resolved to, and throws
    only after [maxRetries] invocations that all failed. *)
Theorem retry_settles_within_bound {T E : Type}
  (fn : nat -> Backoff.Settled T E) (maxRetries : nat) (delayMs : Z) :
  let r := Backoff.retry fn maxRetries delayMs in
  (Backoff.invocations r <= maxRetries)%nat
  /\ Backoff.waits r
     = map (backoff delayMs) (seq 1 (Backoff.invocations r - 1))
  /\ Upload.sum_ms (Backoff.waits r)
     = (delayMs * (2 ^ Z.of_nat (Backoff.invocations r - 1) - 1))%Z
  /\ (forall j, (1 <= j < Backoff.invocations r)%nat -> fails fn j)
  /\ match Backoff.settled r with
     | inl v => fn (Backoff.invocations r) = Backoff.Resolved v
     | inr _ =>
         Backoff.invocations r = maxRetries
         /\ forall j, (1 <= j <= maxRetries)%nat -> fails fn j
     end.
Proof.
  cbn zeta. unfold Backoff.retry.
  destruct (retry_loop_any fn maxRetries delayMs maxRetries 0 None [])
    as (Hcount & _ & Hwaits & Hfails & Hend); [lia|].
  cbn zeta in *. cbn [app] in Hwaits.
  set (r := Backoff.retry_loop _ _ _ _ _ _ _ _) in *.
  split_and!.
  - lia.
  - done.
  - rewrite Hwaits. apply sum_backoff.
  - intros j Hj. apply Hfails. lia.
  - destruct (Backoff.settled r) as [v|last].
    + by destruct Hend.
    + destruct Hend as [Hm Hall]. split; [done|].
      intros j Hj. apply Hall. lia.
Qed.

(** ** Upload service *)

Section UploadFacts.
Import Upload.

(** A count that sleeping leaves alone and one invocation of [fn] raises
    by at most [b] is raised by at most [b] per iteration. *)
Lemma retry_loop_count {A} (fn : Task A) (mu : Net -> nat) (b : nat)
  maxRetries delayMs :
  (forall n, (mu n <= mu (fn n).2 <= mu n + b)%nat) ->
  (forall ms n, mu (sleep ms n) = mu n) ->
  forall remaining attempt lastError n,
    (mu n
     <= mu (retry_loop fn maxRetries delayMs remaining attempt lastError n).2
     <= mu n + remaining * b)%nat.
Proof.
  intros Hfn Hsleep.
  induction remaining as [|remaining IH]; intros attempt lastError n;
    cbn [retry_loop]; [cbn; lia|].
  pose proof (Hfn n) as Hn. destruct (fn n) as [[v|e] n']; cbn [snd] in *.
  - lia.
  - specialize (IH (S attempt) e
                  (if (attempt <? maxRetries)%nat
                   then sleep (delayMs * 2 ^ Z.of_nat (attempt - 1))%Z n'
                   else n')).
    assert (Hmu : mu (if (attempt <? maxRetries)%nat
                      then sleep (delayMs * 2 ^ Z.of_nat (attempt - 1))%Z n'
                      else n') = mu n')
      by (destruct (_ <? _)%nat; [apply Hsleep|done]).
    rewrite Hmu in IH. lia.
Qed.

Lemma retry_loop_step {A} (fn : Task A) maxRetries delayMs k attempt
  lastError n :
  retry_loop fn maxRetries delayMs (S k) attempt lastError n
  = match fn n with
    | (inl v, n') => (inl v, n')
    | (inr e, n') =>
        retry_loop fn maxRetries delayMs k (S attempt) e
          (if (attempt <? maxRetries)%nat
           then sleep (delayMs * 2 ^ Z.of_nat (attempt - 1))%Z n'
           else n')
    end.
Proof. reflexivity. Qed.

(** After a failure the loop throws a failure: [undefined] is thrown only
    by a loop that never ran [fn]. *)
Lemma retry_loop_error {A} (fn : Task A) maxRetries delayMs :
  (forall n e, (fn n).1 = inr e -> is_Some e) ->
  forall remaining attempt lastError n e,
    is_Some lastError \/ (0 < remaining)%nat ->
    (retry_loop fn maxRetries delayMs remaining attempt lastError n).1
    = inr e ->
    is_Some e.
Proof.
  intros Hfn.
  induction remaining as [|remaining IH]; intros attempt lastError n e Hpre;
    cbn [retry_loop].
  - cbn. intros [= <-]. destruct Hpre; [done|lia].
  - pose proof (Hfn n) as Hn. destruct (fn n) as [[v|e'] n']; cbn [fst] in *.
    + done.
    + apply IH. left. by apply Hn.
Qed.

Lemma sleep_sum ms n :
  sum_ms (slept (sleep ms n)) = (sum_ms (slept n) + ms)%Z.
Proof.
  unfold sleep. cbn [slept]. rewrite sum_ms_app. unfold sum_ms. cbn. lia.
Qed.

(** Three attempts a second apart, then two: at most three seconds of
    backoff on top of what the attempts sleep themselves. *)
Lemma retry3_sleep {A} (fn : Task A) (b : Z) :
  (forall n, (sum_ms (slept n) <= sum_ms (slept (fn n).2)
              <= sum_ms (slept n) + b)%Z) ->
  forall n,
    (sum_ms (slept n) <= sum_ms (slept (retry fn 3 1000 n).2)
     <= sum_ms (slept n) + 3 * b + 3000)%Z.
Proof.
  intros Hfn n. unfold retry. cbn [retry_loop Nat.ltb Nat.leb Nat.sub].
  pose proof (Hfn n) as H1. destruct (fn n) as [[v1|e1] n1]; cbn [snd] in *;
    [lia|].
  pose proof (Hfn (sleep (1000 * 2 ^ Z.of_nat 0) n1)) as H2.
  rewrite sleep_sum in H2.
  destruct (fn (sleep _ n1)) as [[v2|e2] n2]; cbn [snd] in *; [cbn in *; lia|].
  pose proof (Hfn (sleep (1000 * 2 ^ Z.of_nat 1) n2)) as H3.
  rewrite sleep_sum in H3.
  destruct (fn (sleep _ n2)) as [[v3|e3] n3]; cbn [snd] in *; cbn in *; lia.
Qed.

Lemma s3_upload_counts env folder filename n :
  let n' := (s3_upload env folder filename n).2 in
  downloads n' = downloads n /\ uploads n' = S (uploads n)
  /\ slept n' = slept n.
Proof. unfold s3_upload. cbn zeta. by destruct (s3_answer env _). Qed.

Lemma uploadBuffer_counts env folder filename n :
  let n' := (uploadBuffer env folder filename n).2 in
  downloads n' = downloads n
  /\ (uploads n <= uploads n' <= uploads n + 3)%nat
  /\ (sum_ms (slept n) <= sum_ms (slept n') <= sum_ms (slept n) + 3000)%Z.
Proof.
  cbn zeta. unfold uploadBuffer.
  assert (Hstep : forall m,
    downloads (s3_upload env folder filename m).2 = downloads m
    /\ uploads (s3_upload env folder filename m).2 = S (uploads m)
    /\ slept (s3_upload env folder filename m).2 = slept m)
    by (intros m; apply s3_upload_counts).
  pose proof (retry_loop_count (s3_upload env folder filename) downloads 0
                3 1000) as Hd.
  pose proof (retry_loop_count (s3_upload env folder filename) uploads 1
                3 1000) as Hu.
  pose proof (retry3_sleep (s3_upload env folder filename) 0) as Hs.
  unfold retry in *.
  specialize (Hd ltac:(intros m; destruct (Hstep m) as (-> & _); lia)
                ltac:(done) 3%nat 1%nat None n).
  specialize (Hu ltac:(intros m; destruct (Hstep m) as (_ & -> & _); lia)
                ltac:(done) 3%nat 1%nat None n).
  specialize (Hs ltac:(intros m; destruct (Hstep m) as (_ & _ & ->); lia) n).
  split; [lia|]. split; lia.
Qed.

Lemma uploadBuffer_error env folder filename n e :
  (uploadBuffer env folder filename n).1 = inr e -> is_Some e.
Proof.
  unfold uploadBuffer, retry. apply retry_loop_error; [|right; lia].
  intros m e'. unfold s3_upload. cbn zeta.
  destruct (s3_answer env _); cbn; [done|]. by intros [= <-].
Qed.

Lemma fetch_and_store_counts env guess ext fileUrl folder filename n :
  let n' := (fetch_and_store env guess ext fileUrl folder filename n).2 in
  downloads n' = S (downloads n)
  /\ (uploads n <= uploads n' <= uploads n + 3)%nat
  /\ (sum_ms (slept n) <= sum_ms (slept n') <= sum_ms (slept n) + 3000)%Z.
Proof.
  cbn zeta. unfold fetch_and_store. cbn zeta.
  destruct (download_answer env _) as [response|message]; cbn [snd].
  - match goal with
    | |- context [uploadBuffer env folder ?f ?m] =>
        destruct (uploadBuffer_counts env folder f m) as (Hd & Hu & Hs)
    end.
    cbn zeta in *. cbn [downloads uploads slept] in *.
    split; [exact Hd|]. split; [exact Hu|exact Hs].
  - cbn [downloads uploads slept]. split; [done|]. split; lia.
Qed.

Lemma fetch_and_store_error env guess ext fileUrl folder filename n e :
  (fetch_and_store env guess ext fileUrl folder filename n).1 = inr e ->
  is_Some e.
Proof.
  unfold fetch_and_store. cbn zeta.
  destruct (download_answer env _) as [response|message].
  - apply uploadBuffer_error.
  - cbn. by intros [= <-].
Qed.

(** Every failed attempt of the outer loop has sent one GET. *)
Lemma retry3_downloads env guess ext fileUrl folder filename n e :
  let fn := fetch_and_store env guess ext fileUrl folder filename in
  (retry fn 3 1000 n).1 = inr e ->
  downloads (retry fn 3 1000 n).2 = (downloads n + 3)%nat.
Proof.
  cbn zeta. unfold retry. cbn [retry_loop Nat.ltb Nat.leb Nat.sub].
  set (fn := fetch_and_store env guess ext fileUrl folder filename).
  pose proof (fetch_and_store_counts env guess ext fileUrl folder filename n)
    as (H1 & _). fold fn in H1. cbn zeta in H1.
  destruct (fn n) as [[v1|e1] n1]; cbn [fst snd] in *; [done|].
  pose proof (fetch_and_store_counts env guess ext fileUrl folder filename
                (sleep (1000 * 2 ^ Z.of_nat 0) n1)) as (H2 & _).
  fold fn in H2. cbn zeta in H2.
  destruct (fn (sleep _ n1)) as [[v2|e2] n2]; cbn [fst snd] in *; [done|].
  pose proof (fetch_and_store_counts env guess ext fileUrl folder filename
                (sleep (1000 * 2 ^ Z.of_nat 1) n2)) as (H3 & _).
  fold fn in H3. cbn zeta in H3.
  destruct (fn (sleep _ n2)) as [[v3|e3] n3]; cbn [fst snd] in *; [done|].
  intros _. cbn [sleep downloads] in *. lia.
Qed.

(** The bounds of one download-and-upload, for either kind of file. *)
Lemma fetch_and_store_retry env guess ext fileUrl folder filename n :
  let run :=
    retry (fetch_and_store env guess ext fileUrl folder filename) 3 1000 n in
  (exists res, caught run.1 = Returned res)
  /\ (downloads n < downloads run.2 <= downloads n + 3)%nat
  /\ (uploads n <= uploads run.2 <= uploads n + 9)%nat
  /\ (sum_ms (slept run.2) <= sum_ms (slept n) + 12000)%Z
  /\ (forall message, caught run.1 = Returned (Failed message) ->
        downloads run.2 = (downloads n + 3)%nat).
Proof.
  cbn zeta.
  set (fn := fetch_and_store env guess ext fileUrl folder filename).
  assert (Hcounts : forall m,
    downloads (fn m).2 = S (downloads m)
    /\ (uploads m <= uploads (fn m).2 <= uploads m + 3)%nat
    /\ (sum_ms (slept m) <= sum_ms (slept (fn m).2)
        <= sum_ms (slept m) + 3000)%Z)
    by (intros m; apply fetch_and_store_counts).
  split; [|split; [|split; [|split]]].
  - destruct (retry fn 3 1000 n).1 as [stored|e] eqn:Hrun; [by eexists|].
    apply retry_loop_error in Hrun as [message ->]; [by eexists| |right; lia].
    intros m e'. apply fetch_and_store_error.
  - unfold retry. rewrite retry_loop_step.
    destruct (Hcounts n) as (Hd & _).
    destruct (fn n) as [[v|e] n1]; cbn [snd] in *; [lia|].
    pose proof (retry_loop_count fn downloads 1 3 1000
      ltac:(intros m; destruct (Hcounts m) as (-> & _); lia) ltac:(done)
      2%nat 2%nat e (sleep (1000 * 2 ^ Z.of_nat (1 - 1)) n1)) as H.
    cbn [Nat.ltb Nat.leb] in *. cbn [sleep downloads] in H. lia.
  - pose proof (retry_loop_count fn uploads 3 3 1000
      ltac:(intros m; destruct (Hcounts m) as (_ & ? & _); lia) ltac:(done)
      3%nat 1%nat None n) as H.
    unfold retry. lia.
  - pose proof (retry3_sleep fn 3000
      ltac:(intros m; destruct (Hcounts m) as (_ & _ & ?); lia) n) as H.
    lia.
  - intros message Hfailed.
    destruct (retry fn 3 1000 n).1 as [stored|e] eqn:Hrun; [done|].
    by eapply retry3_downloads.
Qed.

End UploadFacts.

(** X9. Downloading a generated image or video and storing it never throws
    and gives up within bounds: it resolves to a stored object or to a
    failure with a message, after at least one and at most 3 GET requests,
    at most 9 S3 uploads and at most 12 seconds of backoff; a failure is
    reported only after 3 GET requests. *)
Theorem upload_gives_up_within_bounds (env : Upload.Env)
  (fileUrl folder : string) (filename : jsstr) (n : Upload.Net) :
  let image := Upload.downloadAndUploadImage env fileUrl folder filename n in
  let video := Upload.downloadAndUploadVideo env fileUrl folder filename n in
  ((exists res, image.1 = Returned res)
   /\ (Upload.downloads n < Upload.downloads image.2
       <= Upload.downloads n + 3)%nat
   /\ (Upload.uploads n <= Upload.uploads image.2 <= Upload.uploads n + 9)%nat
   /\ (Upload.sum_ms (Upload.slept image.2)
       <= Upload.sum_ms (Upload.slept n) + 12000)%Z
   /\ (forall message, image.1 = Returned (Upload.Failed message) ->
         Upload.downloads image.2 = (Upload.downloads n + 3)%nat))
  /\ ((exists res, video.1 = Returned res)
      /\ (Upload.downloads n < Upload.downloads video.2
          <= Upload.downloads n + 3)%nat
      /\ (Upload.uploads n <= Upload.uploads video.2
          <= Upload.uploads n + 9)%nat
      /\ (Upload.sum_ms (Upload.slept video.2)
          <= Upload.sum_ms (Upload.slept n) + 12000)%Z
      /\ (forall message, video.1 = Returned (Upload.Failed message) ->
            Upload.downloads video.2 = (Upload.downloads n + 3)%nat)).
Proof.
  cbn zeta.
  unfold Upload.downloadAndUploadImage, Upload.downloadAndUploadVideo.
  pose proof (fetch_and_store_retry env Upload.image_type_of "jpg" fileUrl
                folder filename n) as Hi.
  pose proof (fetch_and_store_retry env Upload.video_type_of "mp4" fileUrl
                folder filename n) as Hv.
  cbn zeta in Hi, Hv.
  destruct (Upload.retry (Upload.fetch_and_store env Upload.image_type_of _
                            _ _ _) 3 1000 n) as [si ni].
  destruct (Upload.retry (Upload.fetch_and_store env Upload.video_type_of _
                            _ _ _) 3 1000 n) as [sv nv].
  split; assumption.
Qed.

(** X10. When the first GET and the first S3 upload both succeed, an image is
    stored with one request each and no sleeping, under [folder/filename];
    without a filename the name is the generated stem with the extension
    of the response's content type, or of the type guessed from the URL
    when the response names none.  The URL reported is the CDN's when one
    is configured and the S3 location otherwise. *)
Theorem image_stored_at_first_try (env : Upload.Env)
  (imageUrl folder : string) (filename : jsstr) (n : Upload.Net)
  (response : Upload.Response) (location : string) :
  Upload.download_answer env (S (Upload.downloads n)) = inl response ->
  Upload.s3_answer env (S (Upload.uploads n)) = inl location ->
  let contentType :=
    or_str (Upload.content_type response) (Upload.image_type_of imageUrl) in
  let name :=
    or_str filename
      (Upload.stem env (S (Upload.downloads n)) +:+ "."
       +:+ Upload.extension contentType "jpg") in
  let key := folder +:+ "/" +:+ name in
  Upload.downloadAndUploadImage env imageUrl folder filename n
  = (Returned
       (Upload.Uploaded
          (Upload.mkStored
             (if truthy (Upload.cdnUrl env)
              then Pipelines.show (Upload.cdnUrl env) +:+ "/" +:+ key
              else location)
             key)),
     Upload.mkNet (S (Upload.downloads n)) (S (Upload.uploads n))
       (Upload.slept n)).
Proof.
  intros Hget Hput. cbn zeta.
  unfold Upload.downloadAndUploadImage, Upload.retry.
  rewrite retry_loop_step. unfold Upload.fetch_and_store at 1.
  cbn zeta. rewrite Hget.
  unfold Upload.uploadBuffer, Upload.retry. rewrite retry_loop_step.
  unfold Upload.s3_upload at 1. cbn zeta. cbn [Upload.uploads].
  rewrite Hput. reflexivity.
Qed.

Lemma image_stored_at_first_try_witness :
  Upload.downloadAndUploadImage
    (Upload.mkEnv (Some "https://cdn.xona.example")
       (fun _ => inl (Upload.mkResponse (Some "image/png")))
       (fun _ => inl "https://nyc3.example/generated/a.png")
       (fun _ => "1700000000000-abc"))
    "https://replicate.example/out.webp" "generated" None
    (Upload.mkNet 0 0 [])
  = (Returned
       (Upload.Uploaded
          (Upload.mkStored
             "https://cdn.xona.example/generated/1700000000000-abc.png"
             "generated/1700000000000-abc.png")),
     Upload.mkNet 1 1 []).
Proof.
  apply (image_stored_at_first_try
           (Upload.mkEnv (Some "https://cdn.xona.example")
              (fun _ => inl (Upload.mkResponse (Some "image/png")))
              (fun _ => inl "https://nyc3.example/generated/a.png")
              (fun _ => "1700000000000-abc"))
           "https://replicate.example/out.webp" "generated" None
           (Upload.mkNet 0 0 []) (Upload.mkResponse (Some "image/png"))
           "https://nyc3.example/generated/a.png");
    reflexivity.
Defined.

(** ** Cron jobs *)

Section CronFacts.
Import Cron.

Lemma stop_head t p rest :
  Forall (fun u => u.1 <> t) rest -> stop t ((t, p) :: rest) = rest.
Proof.
  intros Hrest. unfold stop. cbn [List.filter fst]. rewrite Nat.eqb_refl.
  cbn [negb]. induction Hrest as [|u rest Hu Hrest IH]; cbn [List.filter];
    [done|].
  apply Nat.eqb_neq in Hu. rewrite Hu. cbn [negb]. by rewrite IH.
Qed.

Lemma stopCron_stops j :
  all_stopped j \/ all_started j -> all_stopped (stopCron j).
Proof.
  intros [(Hx & Hs & Hp & Hl)|(t & Hx & Hs & Hp & Hl)];
    destruct j as [x s p a st l c];
    cbn [xNewsCron showcaseCron pumpfunCron scheduled] in *; subst;
    unfold stopCron, all_stopped;
    cbn [xNewsCron showcaseCron pumpfunCron scheduled agent superteamAgent
         created].
  - done.
  - rewrite stop_head by (repeat constructor; cbn; lia).
    rewrite stop_head by (repeat constructor; cbn; lia).
    rewrite stop_head by constructor. done.
Qed.

Lemma startCron_starts a superteam j :
  all_stopped j \/ all_started j ->
  all_started (startCron a superteam j)
  /\ agent (startCron a superteam j) = Some a
  /\ superteamAgent (startCron a superteam j) = superteam.
Proof.
  intros Hj. apply stopCron_stops in Hj.
  unfold startCron. destruct (stopCron j) as [x s p a' st l c].
  destruct Hj as (Hx & Hs & Hp & Hl).
  cbn [xNewsCron showcaseCron pumpfunCron scheduled] in *. subst.
  split; [|done]. by exists c.
Qed.

Lemma run_keeps ops : forall j,
  all_stopped j \/ all_started j ->
  all_stopped (run ops j) \/ all_started (run ops j).
Proof.
  induction ops as [|op ops IH]; intros j Hj; [done|].
  cbn [run fold_left]. apply IH. destruct op as [a superteam|]; cbn [apply].
  - right. by apply startCron_starts.
  - left. by apply stopCron_stops.
Qed.

Lemma all_started_counts j p : all_started j -> scheduled_for p j = 1%nat.
Proof.
  intros (t & _ & _ & _ & Hl). unfold scheduled_for. rewrite Hl.
  by destruct p.
Qed.

Lemma all_stopped_counts j p : all_stopped j -> scheduled_for p j = 0%nat.
Proof.
  intros (_ & _ & _ & Hl). unfold scheduled_for. by rewrite Hl.
Qed.

End CronFacts.

(** X11. Starting and stopping the cron jobs in any order never leaves a task
    behind: after any sequence of [startCron] and [stopCron] calls on the
    module as loaded, each pipeline has at most one scheduled task; it has
    exactly one, held by the module's binding, when the last call was
    [startCron], whose callbacks then post as the agent of that call, and
    none when the last call was [stopCron] or there was no call. *)
Theorem cron_jobs_never_pile_up (ops : list Cron.Op)
  (p : Scheduler.Pipeline) :
  let j := Cron.run ops Cron.initial in
  (Cron.scheduled_for p j <= 1)%nat
  /\ match last ops with
     | Some (Cron.Start a superteam) =>
         Cron.all_started j /\ Cron.scheduled_for p j = 1%nat
         /\ Cron.agent j = Some a
     | Some Cron.Stop | None =>
         Cron.all_stopped j /\ Cron.scheduled_for p j = 0%nat
     end.
Proof.
  cbn zeta.
  assert (Hinit : Cron.all_stopped Cron.initial \/ Cron.all_started Cron.initial)
    by (left; done).
  split.
  - destruct (run_keeps ops Cron.initial Hinit) as [H|H].
    + rewrite all_stopped_counts by done. lia.
    + rewrite all_started_counts by done. lia.
  - destruct ops as [|op ops _] using rev_ind.
    + cbn [last Cron.run fold_left]. split; [done|].
      by apply all_stopped_counts.
    + rewrite last_snoc. unfold Cron.run. rewrite fold_left_app.
      cbn [fold_left Cron.apply].
      pose proof (run_keeps ops Cron.initial Hinit) as Hkeep.
      unfold Cron.run in Hkeep. destruct op as [a superteam|]; cbn [Cron.apply].
      * destruct (startCron_starts a superteam _ Hkeep) as (Hs & Ha & _).
        split_and!; [done| |done]. by apply all_started_counts.
      * pose proof (stopCron_stops _ Hkeep) as Hs.
        split; [done|]. by apply all_stopped_counts.
Qed.

(** ** Scans *)

Section ScanFacts.
Import Scanner.

Lemma submit_each_spec env todo : forall k a,
  let out := submit_each env todo k a in
  (k <= out.1 <= k + length todo)%nat
  /\ submittedListings a ⊆ submittedListings out.2
  /\ (forall id, id ∈ submittedListings out.2 ->
        id ∈ submittedListings a \/ id ∈ map cid todo)
  /\ (forall c, c ∈ todo -> is_Some (submission env (cid c)) ->
        cid c ∈ submittedListings out.2).
Proof.
  induction todo as [|c rest IH]; intros k a; cbn zeta; cbn [submit_each].
  - cbn [fst snd length map]. split; [lia|]. split; [done|].
    split; [by left|]. intros c Hc. by apply elem_of_nil in Hc.
  - unfold submitWork.
    destruct (submission env (cid c)) as [body|] eqn:Hsub.
    + destruct (IH (if body then S k else k)
                  (mkAgent ({[cid c]} ∪ submittedListings a)
                     (requests a ++ [cid c])))
        as (Hcount & Hsub' & Hfrom & Hin).
      cbn zeta in *. cbn [submittedListings] in *.
      split; [destruct body; cbn [length]; lia|].
      split; [etransitivity; [apply union_subseteq_r|exact Hsub']|]. split.
      * intros id Hid. destruct (Hfrom id Hid) as [Hold|Hnew].
        -- apply elem_of_union in Hold as [Hc%elem_of_singleton|Hold];
             [subst; right; cbn [map]; by left|by left].
        -- right. cbn [map]. by right.
      * intros c' [->|Hc']%elem_of_cons Hok.
        -- apply Hsub', elem_of_union_l. by apply elem_of_singleton.
        -- by apply Hin.
    + destruct (IH k (mkAgent (submittedListings a) (requests a ++ [cid c])))
        as (Hcount & Hsub' & Hfrom & Hin).
      cbn zeta in *. cbn [submittedListings] in *.
      split; [cbn [length]; lia|]. split; [done|]. split.
      * intros id Hid. destruct (Hfrom id Hid) as [Hold|Hnew];
          [by left|right; cbn [map]; by right].
      * intros c' [->|Hc']%elem_of_cons Hok.
        -- rewrite Hsub in Hok. by destruct Hok.
        -- by apply Hin.
Qed.

Lemma candidates_fresh acted listings c :
  c ∈ candidates acted listings ->
  (cid c ∉ acted) /\ (2 <= cscore c)%nat.
Proof.
  intros Hc%list_elem_of_In. unfold candidates in Hc.
  apply (Permutation_in _ (sort_by_perm_any _ _)) in Hc.
  apply List.filter_In in Hc as [Hc Hnew].
  apply List.filter_In in Hc as [_ Hscore].
  split; [|by apply Nat.leb_le].
  by apply negb_true_iff, bool_decide_eq_false in Hnew.
Qed.

Lemma candidates_length acted listings :
  (length (candidates acted listings) <= length listings)%nat.
Proof.
  unfold candidates.
  rewrite (Permutation_length (sort_by_perm_any _ _)).
  etransitivity; [apply filter_length_le|].
  etransitivity; [apply filter_length_le|]. by rewrite length_map.
Qed.

(** What a scan requests: the ids of the first three candidates, or
    nothing when discovery gave no listing. *)
Lemma scan_requests env a :
  Submission.new_requests a (scanAndSubmit env a).2
  = match discover env with
    | Some listings =>
        map cid (toSubmit (candidates (submittedListings a) listings))
    | None => []
    end.
Proof.
  unfold Submission.new_requests, scanAndSubmit.
  destruct (discover env) as [[|l ls]|]; cbn [snd].
  - by rewrite drop_all.
  - pose proof (submit_each_requests env
      (toSubmit (candidates (submittedListings a) (l :: ls))) 0 a) as Hreq.
    destruct (submit_each _ _ _ _) as [k a']. cbn [snd] in *.
    by rewrite Hreq, drop_app_length.
  - by rewrite drop_all.
Qed.

End ScanFacts.

(** X12. A scan keeps to its quota and only adds to the record of
    submissions: it resolves normally, sends at most 3 submission
    requests, counts as submitted no more than it sent, reports no more
    candidates than listings scanned, and every listing id recorded before
    the scan is still recorded after it. *)
Theorem scan_keeps_to_quota (env : Scanner.Responses) (a : Scanner.Agent) :
  let out := Scanner.scanAndSubmit env a in
  exists r,
    out.1 = Returned r
    /\ (Scanner.submitted r <= length (Submission.new_requests a out.2) <= 3)%nat
    /\ (forall c, Scanner.candidate_count r = Some c ->
          length (Submission.new_requests a out.2) = Nat.min 3 c
          /\ (c <= Scanner.scanned r)%nat)
    /\ Scanner.submittedListings a ⊆ Scanner.submittedListings out.2.
Proof.
  cbn zeta. pose proof (scan_requests env a) as Hreq.
  unfold Scanner.scanAndSubmit in *.
  destruct (Scanner.discover env) as [[|l ls]|]; cbn [fst snd] in *.
  - eexists. split; [done|]. rewrite Hreq. cbn. split; [lia|]. by split.
  - pose proof (submit_each_spec env
      (Scanner.toSubmit
         (Scanner.candidates (Scanner.submittedListings a) (l :: ls))) 0 a)
      as (Hcount & Hsub & _).
    cbn zeta in Hcount, Hsub.
    destruct (Scanner.submit_each _ _ _ _) as [k a']. cbn [fst snd] in *.
    eexists. split; [done|]. rewrite Hreq, length_map.
    cbn [Scanner.submitted Scanner.candidate_count Scanner.scanned].
    unfold Scanner.toSubmit in *. rewrite length_take in *.
    split; [lia|]. split; [|done].
    intros c [= <-]. split; [lia|]. apply candidates_length.
  - eexists. split; [done|]. rewrite Hreq. cbn. split; [lia|]. by split.
Qed.

(** X13. A scan never submits again to a listing on record: no request of a
    scan names a listing recorded as submitted when the scan began, and a
    listing whose submission request succeeded in one scan is requested by
    no later scan, whatever discovery answers then. *)
Theorem scan_never_resubmits (env1 env2 : Scanner.Responses)
  (a : Scanner.Agent) (id : string) :
  let a1 := (Scanner.scanAndSubmit env1 a).2 in
  let a2 := (Scanner.scanAndSubmit env2 a1).2 in
  id ∈ Submission.new_requests a a1 ->
  (id ∉ Scanner.submittedListings a)
  /\ (is_Some (Scanner.submission env1 id) ->
      id ∈ Scanner.submittedListings a1
      /\ (id ∉ Submission.new_requests a1 a2)).
Proof.
  cbn zeta. intros Hid.
  assert (Hfresh : forall env b x,
    x ∈ Submission.new_requests b (Scanner.scanAndSubmit env b).2 ->
    x ∉ Scanner.submittedListings b).
  { intros env b x. rewrite scan_requests.
    destruct (Scanner.discover env) as [listings|];
      [|by intros ?%elem_of_nil].
    intros (c & -> & Hc)%list_elem_of_fmap. unfold Scanner.toSubmit in Hc.
    eapply candidates_fresh. eapply (subseteq_take 3). exact Hc. }
  split; [by eapply Hfresh|]. intros Hok.
  assert (Hrec : id ∈ Scanner.submittedListings (Scanner.scanAndSubmit env1 a).2).
  { rewrite scan_requests in Hid. unfold Scanner.scanAndSubmit.
    destruct (Scanner.discover env1) as [[|l ls]|]; cbn [snd];
      try by apply elem_of_nil in Hid.
    apply list_elem_of_fmap in Hid as (c & -> & Hc).
    pose proof (submit_each_spec env1
      (Scanner.toSubmit
         (Scanner.candidates (Scanner.submittedListings a) (l :: ls))) 0 a)
      as (_ & _ & _ & Hin).
    cbn zeta in Hin. destruct (Scanner.submit_each _ _ _ _) as [k a'].
    cbn [snd] in *. by apply Hin. }
  split; [done|]. intros Hagain. by apply Hfresh in Hagain.
Qed.

Lemma scan_never_resubmits_witness :
  "a" ∉ Submission.new_requests
          (Scanner.scanAndSubmit
             (Scanner.mkResponses (Some [five_a; one_d])
                (fun _ => Some true))
             (Scanner.mkAgent ∅ [])).2
          (Scanner.scanAndSubmit
             (Scanner.mkResponses (Some [five_a; five_b])
                (fun _ => Some true))
             (Scanner.scanAndSubmit
                (Scanner.mkResponses (Some [five_a; one_d])
                   (fun _ => Some true))
                (Scanner.mkAgent ∅ [])).2).2.
Proof.
  apply (scan_never_resubmits
           (Scanner.mkResponses (Some [five_a; one_d]) (fun _ => Some true))
           (Scanner.mkResponses (Some [five_a; five_b]) (fun _ => Some true))
           (Scanner.mkAgent ∅ []) "a").
  - vm_compute. by left.
  - by eexists.
Defined.

(** ** Scoring, further *)

Section ScoreFacts.
Import Scanner.

Lemma append_assoc_s (a b c : string) : (a +:+ b) +:+ c = a +:+ b +:+ c.
Proof.
  induction a as [|x a IH]; [reflexivity|].
  change (String x ((a +:+ b) +:+ c) = String x (a +:+ b +:+ c)).
  by rewrite IH.
Qed.

Lemma prefix_spec a : forall s,
  String.prefix a s = true <-> exists b, s = a +:+ b.
Proof.
  induction a as [|x a IH]; intros [|y s]; cbn [String.prefix].
  - split; [by exists ""|done].
  - split; [by exists (String y s)|done].
  - split; [done|]. by intros [b Hb].
  - destruct (Ascii.ascii_dec x y) as [->|Hne].
    + rewrite IH. split; intros [b Hb]; exists b.
      * change (String y s = String y (a +:+ b)). by rewrite Hb.
      * change (String y s = String y (a +:+ b)) in Hb. by injection Hb.
    + split; [done|]. intros [b Hb].
      change (String y s = String x (a +:+ b)) in Hb. by injection Hb.
Qed.

Lemma includes_spec kw : forall s,
  includes kw s = true <-> exists a b, s = a +:+ kw +:+ b.
Proof.
  induction s as [|y s IH]; cbn [includes].
  - destruct (String.prefix kw "") eqn:Hp.
    + apply prefix_spec in Hp as [b Hb]. split; [|done].
      intros _. by exists "", b.
    + split; [done|]. intros (a & b & Hab).
      destruct a as [|x a]; [|done]. cbn in Hab.
      assert (String.prefix kw "" = true) by (apply prefix_spec; by exists b).
      congruence.
  - destruct (String.prefix kw (String y s)) eqn:Hp.
    + apply prefix_spec in Hp as [b Hb]. split; [|done].
      intros _. by exists "", b.
    + rewrite IH. split.
      * intros (a & b & ->). by exists (String y a), b.
      * intros (a & b & Hab). destruct a as [|x a].
        -- cbn in Hab.
           assert (String.prefix kw (String y s) = true)
             by (apply prefix_spec; by exists b).
           congruence.
        -- cbn in Hab. injection Hab as _ ->. by exists a, b.
Qed.

(** A keyword found in a text is found in any text around it. *)
Lemma includes_wrapped kw before text after :
  includes kw text = true ->
  includes kw (before +:+ text +:+ after) = true.
Proof.
  intros (a & b & ->)%includes_spec. apply includes_spec.
  exists (before +:+ a), (b +:+ after).
  by rewrite !append_assoc_s.
Qed.

Lemma existsb_impl {A} (f g : A -> bool) l :
  (forall x, f x = true -> g x = true) ->
  existsb f l = true -> existsb g l = true.
Proof.
  intros Hfg. induction l as [|x l IH]; cbn; [done|].
  intros [Hx|Hl]%orb_true_iff; apply orb_true_iff; [left|right]; auto.
Qed.

Lemma hits_sublist {A B} (fst' : A -> B) (f g : A -> bool) l :
  (forall x, f x = true -> g x = true) ->
  sublist (map fst' (List.filter f l)) (map fst' (List.filter g l)).
Proof.
  intros Hfg. induction l as [|x l IH]; cbn [List.filter map]; [done|].
  destruct (f x) eqn:Hf.
  - rewrite (Hfg x Hf). cbn [map]. by constructor.
  - destruct (g x); cbn [map]; [by constructor|done].
Qed.

Lemma score_text_hits table text :
  score_text table text
  = mkScore (length (List.filter (category_matches text) table))
      (map fst (List.filter (category_matches text) table)).
Proof. unfold score_text. by rewrite scan_categories_spec. Qed.

Lemma lower_ascii_idem c : lower_ascii (lower_ascii c) = lower_ascii c.
Proof. destruct c as [[] [] [] [] [] [] [] []]; reflexivity. Qed.

Lemma toLowerCase_idem s : toLowerCase (toLowerCase s) = toLowerCase s.
Proof.
  induction s as [|c s IH]; cbn [toLowerCase]; [done|].
  by rewrite lower_ascii_idem, IH.
Qed.

Lemma toLowerCase_app a b :
  toLowerCase (a +:+ b) = toLowerCase a +:+ toLowerCase b.
Proof.
  induction a as [|c a IH]; [reflexivity|].
  change (String (lower_ascii c) (toLowerCase (a +:+ b))
          = String (lower_ascii c) (toLowerCase a +:+ toLowerCase b)).
  by rewrite IH.
Qed.

Lemma or_str_empty s : or_str (Some s) "" = s.
Proof. cbn. destruct (String.eqb_spec s ""); by subst. Qed.

End ScoreFacts.

(** X14. Text around a text never lowers its score: every category matched in
    a text is matched, in the same order, in any text that contains it, so
    a listing with words put before its title or after its slug scores at
    least as much. *)
Theorem score_grows_with_text (table : list (string * list string))
  (before text after : string) (l : Scanner.Listing) :
  let small := Scanner.score_text table text in
  let large := Scanner.score_text table (before +:+ text +:+ after) in
  (Scanner.score small <= Scanner.score large)%nat
  /\ sublist (Scanner.matchedCategories small)
       (Scanner.matchedCategories large)
  /\ (Scanner.score (Scanner.scoreListing l)
      <= Scanner.score
           (Scanner.scoreListing (Submission.wrapped before after l)))%nat.
Proof.
  assert (Hany : forall tbl pre txt post,
    sublist
      (map fst (List.filter (category_matches txt) tbl))
      (map fst (List.filter (category_matches (pre +:+ txt +:+ post)) tbl))).
  { intros tbl pre txt post. apply hits_sublist. intros [c kws].
    unfold category_matches. cbn [snd]. apply existsb_impl.
    intros kw. apply includes_wrapped. }
  cbn zeta. rewrite !score_text_hits.
  cbn [Scanner.score Scanner.matchedCategories]. split_and!.
  - pose proof (sublist_length _ _ (Hany table before text after)) as Hlen.
    by rewrite !length_map in Hlen.
  - apply Hany.
  - unfold Scanner.scoreListing. rewrite !score_text_hits.
    cbn [Scanner.score].
    assert (Htext : Scanner.listing_text (Submission.wrapped before after l)
                    = toLowerCase before +:+ Scanner.listing_text l
                      +:+ toLowerCase after).
    { unfold Scanner.listing_text, Submission.wrapped.
      cbn [Scanner.title Scanner.description Scanner.slug].
      rewrite !or_str_empty, <- !toLowerCase_app. f_equal.
      by rewrite !append_assoc_s. }
    rewrite Htext.
    pose proof (sublist_length _ _
      (Hany Scanner.CAPABILITY_KEYWORDS (toLowerCase before)
         (Scanner.listing_text l) (toLowerCase after))) as Hlen.
    by rewrite !length_map in Hlen.
Qed.

(** X15. Scoring does not see letter case: a listing and the listing with its
    title, description and slug in lower case get the same score and the
    same categories. *)
Theorem score_ignores_letter_case (l : Scanner.Listing) :
  Scanner.scoreListing (Submission.lowered l) = Scanner.scoreListing l.
Proof.
  unfold Scanner.scoreListing. f_equal.
  unfold Scanner.listing_text, Submission.lowered.
  cbn [Scanner.title Scanner.description Scanner.slug].
  rewrite !or_str_empty, !toLowerCase_app, !toLowerCase_idem. done.
Qed.

Section SubmissionFacts.
Import Submission.

Lemma paragraphs_bound matched : (length (paragraphs matched) <= 5)%nat.
Proof.
  unfold paragraphs. rewrite !length_app.
  repeat match goal with
         | |- context [if ?b then _ else _] => destruct b
         end; cbn [length]; lia.
Qed.

Lemma paragraphs_some matched c :
  c ∈ matched -> c ∈ map fst Scanner.CAPABILITY_KEYWORDS ->
  (1 <= length (paragraphs matched))%nat.
Proof.
  intros Hc Hknown.
  assert (Hhas : has matched c = true) by by apply bool_decide_eq_true.
  cbn in Hknown. unfold paragraphs. rewrite !length_app.
  repeat match type of Hknown with
         | _ ∈ _ :: _ => apply elem_of_cons in Hknown as [->|Hknown]
         end; try (by apply elem_of_nil in Hknown);
    rewrite Hhas, ?orb_true_r; cbn [orb length]; lia.
Qed.

End SubmissionFacts.

(** X16. The submission text always names a capability when the listing
    matched one: for a listing that scores at least 1, and so for every
    listing a scan submits to, the text built from its matched categories
    has between 1 and 5 capability paragraphs between its two heading
    lines and its four closing lines. *)
Theorem submission_text_names_a_capability (l : Scanner.Listing)
  (repo demo : jsstr) :
  (1 <= Scanner.score (Scanner.scoreListing l))%nat ->
  let matched := Scanner.matchedCategories (Scanner.scoreListing l) in
  (1 <= length (Submission.paragraphs matched) <= 5)%nat
  /\ length (Submission.parts repo demo matched)
     = (6 + length (Submission.paragraphs matched))%nat.
Proof.
  intros Hscore. cbn zeta. split_and!.
  - unfold Scanner.scoreListing in *. rewrite score_text_hits in *.
    cbn [Scanner.score Scanner.matchedCategories] in *.
    destruct (List.filter _ Scanner.CAPABILITY_KEYWORDS) as [|hit hits] eqn:Hf;
      [cbn in Hscore; lia|].
    apply (paragraphs_some _ hit.1); [cbn [map]; by left|].
    assert (Hin : In hit (List.filter
                            (category_matches (Scanner.listing_text l))
                            Scanner.CAPABILITY_KEYWORDS))
      by (rewrite Hf; by left).
    apply List.filter_In in Hin as [Hin _].
    apply list_elem_of_In, in_map, Hin.
  - apply paragraphs_bound.
  - unfold Submission.parts. rewrite !length_app. cbn [length]. lia.
Qed.

Lemma submission_text_names_a_capability_witness :
  (1 <= length
          (Submission.paragraphs
             (Scanner.matchedCategories (Scanner.scoreListing one_d)))
   <= 5)%nat.
Proof.
  apply (submission_text_names_a_capability one_d None None).
  vm_compute. lia.
Defined.

(** ** Routes *)

Section RouteFacts.
Import Pipelines Routes.

(** An option that passed a route's check, or none, selects an option of
    the list. *)
Lemma selected_is_listed options force index :
  options <> [] ->
  invalid options force = false ->
  show (Rotation.select force options index) ∈ options.
Proof.
  intros Hne Hvalid. unfold Rotation.select, or_else, invalid in *.
  destruct (truthy force).
  - cbn [andb] in Hvalid. apply negb_false_iff in Hvalid.
    by apply bool_decide_eq_true in Hvalid.
  - assert (Hlt : (index mod length options < length options)%nat).
    { apply Nat.mod_upper_bound. by destruct options. }
    apply lookup_lt_is_Some in Hlt as [a Ha]. rewrite Ha. cbn.
    by eapply list_elem_of_lookup_2.
Qed.

Lemma answered_world {R} (settled : Outcome R * World) :
  (answered settled).2 = settled.2.
Proof. by destruct settled as [[r|e] w]. Qed.

Lemma answered_refused {R} (settled : Outcome R * World) code :
  code <> 500%nat -> refused code (answered settled).1 = false.
Proof.
  intros Hcode. destruct settled as [[r|e] w]; [done|].
  unfold answered, refused. cbn [fst]. apply Nat.eqb_neq. lia.
Qed.

End RouteFacts.

(** X17. Every account X News searches and every model the showcase asks for
    is a configured one, however the run was started: a scheduled run, a
    trigger request and a preview request each add at most one search (or
    one image request) to the trace, and it names an entry of
    [X_NEWS_ACCOUNTS] (or of [IMAGE_MODELS]). *)
Theorem runs_use_configured_options (agent : option Pipelines.ForumAgent)
  (field : jsstr) (xenv : Pipelines.XNewsEnv) (senv : Pipelines.ShowcaseEnv)
  (w : Pipelines.World) :
  let listed (options : list string) (before after : list string) :=
    exists added,
      after = before ++ added /\ (length added <= 1)%nat
      /\ Forall (fun o => o ∈ options) added in
  (listed Rotation.X_NEWS_ACCOUNTS
     (Pipelines.searched (Pipelines.trace w))
     (Pipelines.searched
        (Pipelines.trace (Pipelines.cron_xnews agent xenv w)))
   /\ listed Rotation.X_NEWS_ACCOUNTS
        (Pipelines.searched (Pipelines.trace w))
        (Pipelines.searched
           (Pipelines.trace (Routes.trigger_xnews agent xenv field w).2))
   /\ listed Rotation.X_NEWS_ACCOUNTS
        (Pipelines.searched (Pipelines.trace w))
        (Pipelines.searched
           (Pipelines.trace (Routes.test_xnews xenv field w).2)))
  /\ (listed Rotation.IMAGE_MODELS
        (Pipelines.generated (Pipelines.trace w))
        (Pipelines.generated
           (Pipelines.trace (Pipelines.cron_showcase agent senv w)))
      /\ listed Rotation.IMAGE_MODELS
           (Pipelines.generated (Pipelines.trace w))
           (Pipelines.generated
              (Pipelines.trace
                 (Routes.trigger_showcase agent senv field w).2))
      /\ listed Rotation.IMAGE_MODELS
           (Pipelines.generated (Pipelines.trace w))
           (Pipelines.generated
              (Pipelines.trace (Routes.test_showcase senv field w).2))).
Proof.
  cbn zeta.
  assert (Hx : forall a force,
    Routes.invalid Rotation.X_NEWS_ACCOUNTS force = false ->
    exists added,
      Pipelines.searched
        (Pipelines.trace (Pipelines.runXNewsPost xenv a force w).2)
      = Pipelines.searched (Pipelines.trace w) ++ added
      /\ (length added <= 1)%nat
      /\ Forall (fun o => o ∈ Rotation.X_NEWS_ACCOUNTS) added).
  { intros a force Hvalid.
    destruct (runXNewsPost_selection xenv a force w) as [-> _].
    eexists. split; [done|]. split; [cbn; lia|].
    constructor; [|constructor]. by apply selected_is_listed. }
  assert (Hs : forall a force,
    Routes.invalid Rotation.IMAGE_MODELS force = false ->
    exists added,
      Pipelines.generated
        (Pipelines.trace (Pipelines.runImageShowcase senv a force w).2)
      = Pipelines.generated (Pipelines.trace w) ++ added
      /\ (length added <= 1)%nat
      /\ Forall (fun o => o ∈ Rotation.IMAGE_MODELS) added).
  { intros a force Hvalid.
    destruct (runImageShowcase_selection senv a force w) as [-> _].
    eexists. split; [done|]. split; [cbn; lia|].
    constructor; [|constructor]. by apply selected_is_listed. }
  assert (Hnone : forall l : list string,
    exists added : list string,
      l = l ++ added /\ (length added <= 1)%nat
      /\ Forall (fun o => o ∈ Rotation.X_NEWS_ACCOUNTS) added).
  { intros l. exists []. rewrite app_nil_r. split; [done|].
    split; [cbn; lia|constructor]. }
  assert (Hnone' : forall l : list string,
    exists added : list string,
      l = l ++ added /\ (length added <= 1)%nat
      /\ Forall (fun o => o ∈ Rotation.IMAGE_MODELS) added).
  { intros l. exists []. rewrite app_nil_r. split; [done|].
    split; [cbn; lia|constructor]. }
  split; split_and!.
  - by apply Hx.
  - unfold Routes.trigger_xnews. destruct agent as [a|]; [|apply Hnone].
    cbn zeta.
    destruct (Routes.invalid Rotation.X_NEWS_ACCOUNTS (or_else field None))
      eqn:Hvalid; [apply Hnone|].
    rewrite answered_world. by apply Hx.
  - unfold Routes.test_xnews, Pipelines.previewXNews. cbn zeta.
    destruct (Routes.invalid Rotation.X_NEWS_ACCOUNTS (or_else field None))
      eqn:Hvalid; [apply Hnone|].
    rewrite answered_world. by apply Hx.
  - by apply Hs.
  - unfold Routes.trigger_showcase. destruct agent as [a|]; [|apply Hnone'].
    cbn zeta.
    destruct (Routes.invalid Rotation.IMAGE_MODELS (or_else field None))
      eqn:Hvalid; [apply Hnone'|].
    rewrite answered_world. by apply Hs.
  - unfold Routes.test_showcase, Pipelines.previewImageShowcase. cbn zeta.
    destruct (Routes.invalid Rotation.IMAGE_MODELS (or_else field None))
      eqn:Hvalid; [apply Hnone'|].
    rewrite answered_world. by apply Hs.
Qed.

(** X18. A request a route refuses changes nothing: a trigger route answers 503
    exactly when the server has no agent, a route answers 400 only for an
    option that is given and not in its list, and in both cases the
    bindings and the trace are as before the request. *)
Theorem refused_requests_change_nothing
  (agent : option Pipelines.ForumAgent) (field : jsstr)
  (xenv : Pipelines.XNewsEnv) (senv : Pipelines.ShowcaseEnv)
  (penv : Pipelines.PumpEnv) (w : Pipelines.World) :
  let unchanged {R} (out : Routes.Reply R * Pipelines.World) :=
    Routes.refused 400 out.1 = true \/ Routes.refused 503 out.1 = true ->
    out.2 = w in
  let no_agent_503 {R} (out : Routes.Reply R * Pipelines.World) :=
    Routes.refused 503 out.1 = bool_decide (agent = None) in
  (unchanged (Routes.trigger_xnews agent xenv field w)
   /\ unchanged (Routes.test_xnews xenv field w)
   /\ unchanged (Routes.trigger_showcase agent senv field w)
   /\ unchanged (Routes.test_showcase senv field w)
   /\ unchanged (Routes.trigger_pumpfun agent penv field w)
   /\ unchanged (Routes.test_pumpfun penv field w))
  /\ (no_agent_503 (Routes.trigger_xnews agent xenv field w)
      /\ no_agent_503 (Routes.trigger_showcase agent senv field w)
      /\ no_agent_503 (Routes.trigger_pumpfun agent penv field w))
  /\ (Routes.refused 400 (Routes.test_xnews xenv field w).1
      = Routes.invalid Rotation.X_NEWS_ACCOUNTS field
      /\ Routes.refused 400 (Routes.test_showcase senv field w).1
         = Routes.invalid Rotation.IMAGE_MODELS field
      /\ Routes.refused 400 (Routes.test_pumpfun penv field w).1
         = Routes.invalid ["trending"; "movers"] field).
Proof.
  assert (Hor : forall options,
    Routes.invalid options (or_else field None)
    = Routes.invalid options field).
  { intros options. unfold or_else, Routes.invalid.
    destruct (truthy field) eqn:Hf; [by rewrite Hf|done]. }
  cbn zeta.
  unfold Routes.trigger_xnews, Routes.test_xnews, Routes.trigger_showcase,
    Routes.test_showcase, Routes.trigger_pumpfun, Routes.test_pumpfun.
  cbn zeta. rewrite !Hor.
  destruct (Routes.invalid Rotation.X_NEWS_ACCOUNTS field),
    (Routes.invalid Rotation.IMAGE_MODELS field),
    (Routes.invalid ["trending"; "movers"] field), agent as [a|];
    cbn [fst snd Routes.refused Nat.eqb];
    rewrite ?answered_refused by lia;
    rewrite ?bool_decide_eq_true_2, ?bool_decide_eq_false_2 by done;
    split_and!; try done; by intros [?|?].
Qed.

(** ** PumpFun service *)

Section PumpFunFacts.
Import PumpFun.
Context {Cap : Type} (formatMarketCap : Cap -> jsstr).








End PumpFunFacts.




